(** * orient.c: image reorientation (VLC video_chroma module)

    A shallow embedding of [modules/video_chroma/orient.c] and the
    properties of its plane transforms, its dispatch table, its setup
    routine and its pointer mapping.

    Conventions of the embedding.
    - Memory is flat and byte addressed; a pointer is the address of its
      first byte, so [p + k] on a [uintN_t *] is [p + k * (N / 8)] here.
    - C [int] and [ptrdiff_t] values are integers of [Z].  Signed overflow is
      undefined in C, so no wrap-around is written for them; the division
      [stride /= bits / 8] truncates toward zero and is [Z.quot].
    - [unsigned] products (the sample-ratio test of [Open]) wrap modulo
      [2 ^ 32] and are written that way.
    - Every load and store is logged byte by byte, so that the footprint of
      a transform can be stated. *)

From Stdlib Require Import ZArith List Lia Bool.
From Stdlib.Strings Require Import Byte.
Import ListNotations.
Local Open Scope Z_scope.

(* ================================================================== *)
(** * Flat memory with an access log *)
(* ================================================================== *)

Module Mem.

Definition addr := Z.
Definition mem := addr -> byte.

Inductive event : Type :=
| Rd (a : addr)
| Wr (a : addr).

Record state : Type := mkState { st_mem : mem; st_log : list event }.

Definition upd (m : mem) (a : addr) (b : byte) : mem :=
  fun p => if Z.eqb p a then b else m p.

Definition byte_to_Z (b : byte) : Z := Z.of_N (Byte.to_N b).

Definition byte_of_Z (z : Z) : byte :=
  match Byte.of_N (Z.to_N (z mod 256)) with
  | Some b => b
  | None => x00
  end.

(** Object representation of an unsigned integer, least significant byte
    first.  The transforms only move elements, so the byte order chosen here
    does not show in any result. *)
Fixpoint decode (bs : list byte) : Z :=
  match bs with
  | [] => 0
  | b :: bs' => byte_to_Z b + 256 * decode bs'
  end.

Fixpoint encode (n : nat) (v : Z) : list byte :=
  match n with
  | O => []
  | S n' => byte_of_Z v :: encode n' (v / 256)
  end.

Fixpoint read_bytes (m : mem) (a : addr) (n : nat) : list byte :=
  match n with
  | O => []
  | S n' => m a :: read_bytes m (a + 1) n'
  end.

Fixpoint write_bytes (m : mem) (a : addr) (bs : list byte) : mem :=
  match bs with
  | [] => m
  | b :: bs' => write_bytes (upd m a b) (a + 1) bs'
  end.

(** The addresses [a, a+1, ..., a+n-1]. *)
Fixpoint span (a : addr) (n : nat) : list addr :=
  match n with
  | O => []
  | S n' => a :: span (a + 1) n'
  end.

(** Value of the [w]-byte unsigned element stored at [a]. *)
Definition load_mem (w : Z) (m : mem) (a : addr) : Z :=
  decode (read_bytes m a (Z.to_nat w)).

(** [v = *(uintN_t* )a], logged. *)
Definition load (w : Z) (a : addr) (st : state) : Z * state :=
  (load_mem w (st_mem st) a,
   mkState (st_mem st) (st_log st ++ map Rd (span a (Z.to_nat w)))).

(** [*(uintN_t* )a = v], logged. *)
Definition store (w : Z) (a : addr) (v : Z) (st : state) : state :=
  mkState (write_bytes (st_mem st) a (encode (Z.to_nat w) v))
          (st_log st ++ map Wr (span a (Z.to_nat w))).

(** [*d = *s] for two pointers to [w]-byte elements. *)
Definition copy_elem (w : Z) (d s : addr) (st : state) : state :=
  let (v, st1) := load w s st in store w d v st1.

(** [for (int i = 0; i < n; i++) body], threading the loop state. *)
Fixpoint for_iter {S : Type} (k : nat) (i : Z) (body : Z -> S -> S) (s : S) : S :=
  match k with
  | O => s
  | Datatypes.S k' => for_iter k' (i + 1) body (body i s)
  end.

Definition for_loop {S : Type} (n : Z) (body : Z -> S -> S) (s : S) : S :=
  for_iter (Z.to_nat n) 0 body s.

(** [memcpy(d, s, n)]: [n] bytes copied as unsigned chars. *)
Definition memcpy (d s : addr) (n : Z) (st : state) : state :=
  for_loop n (fun i st => copy_elem 1 (d + i) (s + i) st) st.

(** A sequence of element copies, each a pair (source, destination). *)
Definition run_copies (w : Z) (l : list (addr * addr)) (st : state) : state :=
  fold_left (fun st sd => copy_elem w (snd sd) (fst sd) st) l st.

(** The log entries of a sequence of element copies. *)
Definition copies_log (w : Z) (l : list (addr * addr)) : list event :=
  flat_map (fun sd => map Rd (span (fst sd) (Z.to_nat w)) ++
                      map Wr (span (snd sd) (Z.to_nat w))) l.

(** The integers [i, i+1, ..., i+k-1]. *)
Definition zrange (i : Z) (k : nat) : list Z := span i k.

End Mem.

(* ================================================================== *)
(** * The plane transforms *)
(* ================================================================== *)

Module Planes.
Import Mem.

(** Modelled from the spec: [ctz] is a helper of vlc_common.h, which is not
    in the module; it counts the trailing zero bits of its argument, so that
    [width << ctz(bits / 8)] is the row size "width x element_size" of the
    spec's [vflip]. *)
Fixpoint ctz_pos (p : positive) : Z :=
  match p with
  | xO q => 1 + ctz_pos q
  | _ => 0
  end.

Definition ctz (z : Z) : Z :=
  match z with
  | Zpos p => ctz_pos p
  | _ => 0
  end.

(** Loop state of the row loops: the two moving pointers and the memory. *)
Record cursor : Type :=
  mkCursor { c_src : addr; c_dst : addr; c_st : state }.

Definition vflip (dst : addr) (dst_stride : Z) (src : addr) (src_stride : Z)
    (width height order : Z) (st : state) : state :=
  let src_pixels := src in
  let dst_pixels := dst in
  let visible_pitch := Z.shiftl width order in
  let dst_pixels := dst_pixels + dst_stride * height in
  c_st (for_loop height
         (fun _ c =>
            let dst_pixels := c_dst c - dst_stride in
            let st := memcpy dst_pixels (c_src c) visible_pitch (c_st c) in
            let src_pixels := c_src c + src_stride in
            mkCursor src_pixels dst_pixels st)
         (mkCursor src_pixels dst_pixels st)).

Section TRANSFORMS.

Variable bits : Z.

(** [bits / 8], which is also [sizeof(uintN_t)]. *)
Definition elt : Z := Z.quot bits 8.

Definition hflip (dst : addr) (dst_stride : Z) (src : addr) (src_stride : Z)
    (width height : Z) (st : state) : state :=
  let src_pixels := src in
  let dst_pixels := dst in
  let dst_stride := Z.quot dst_stride elt in
  let src_stride := Z.quot src_stride elt in
  let dst_pixels := dst_pixels + (width - 1) * elt in
  c_st (for_loop height
         (fun _ c =>
            let st :=
              for_loop width
                (fun x st =>
                   copy_elem elt (c_dst c + (- x) * elt)
                                 (c_src c + x * elt) st)
                (c_st c) in
            mkCursor (c_src c + src_stride * elt)
                     (c_dst c + dst_stride * elt) st)
         (mkCursor src_pixels dst_pixels st)).

Definition vflip_bits (dst : addr) (dst_stride : Z) (src : addr)
    (src_stride : Z) (width height : Z) (st : state) : state :=
  vflip dst dst_stride src src_stride width height (ctz elt) st.

Definition r180 (dst : addr) (dst_stride : Z) (src : addr) (src_stride : Z)
    (width height : Z) (st : state) : state :=
  let src_pixels := src in
  let src_pixels := src_pixels + (height - 1) * src_stride in
  let src_stride := src_stride * -1 in
  hflip dst dst_stride src_pixels src_stride width height st.

Definition transpose (dst : addr) (dst_stride : Z) (src : addr)
    (src_stride : Z) (src_width src_height : Z) (st : state) : state :=
  let src_pixels := src in
  let dst_pixels := dst in
  let dst_stride := Z.quot dst_stride elt in
  let src_stride := Z.quot src_stride elt in
  c_st (for_loop src_height
         (fun _ c =>
            let st :=
              for_loop src_width
                (fun x st =>
                   copy_elem elt (c_dst c + (x * dst_stride) * elt)
                                 (c_src c + x * elt) st)
                (c_st c) in
            mkCursor (c_src c + src_stride * elt)
                     (c_dst c + 1 * elt) st)
         (mkCursor src_pixels dst_pixels st)).

Definition r270 (dst : addr) (dst_stride : Z) (src : addr) (src_stride : Z)
    (src_width src_height : Z) (st : state) : state :=
  let dst_pixels := dst in
  let dst_pixels := dst_pixels + (src_width - 1) * dst_stride in
  let dst_stride := dst_stride * -1 in
  transpose dst_pixels dst_stride src src_stride src_width src_height st.

Definition r90 (dst : addr) (dst_stride : Z) (src : addr) (src_stride : Z)
    (src_width src_height : Z) (st : state) : state :=
  let src_pixels := src in
  let src_pixels := src_pixels + (src_height - 1) * src_stride in
  let src_stride := src_stride * -1 in
  transpose dst dst_stride src_pixels src_stride src_width src_height st.

Definition antitranspose (dst : addr) (dst_stride : Z) (src : addr)
    (src_stride : Z) (src_width src_height : Z) (st : state) : state :=
  let src_pixels := src in
  let src_pixels := src_pixels + (src_height - 1) * src_stride in
  let src_stride := src_stride * -1 in
  r270 dst dst_stride src_pixels src_stride src_width src_height st.

End TRANSFORMS.

(** The bytes of the visible [width] x [height] rectangle of a plane whose
    rows start [stride] bytes apart and whose elements are [w] bytes. *)
Definition in_plane (base : addr) (stride w width height : Z) (a : addr) : Prop :=
  exists y, 0 <= y < height /\
            base + y * stride <= a < base + y * stride + width * w.

(** Address of element [x] of row [y]. *)
Definition at_xy (base : addr) (stride w x y : Z) : addr :=
  base + y * stride + x * w.

(** A plane given by its rows, written into memory (used by the examples). *)
Fixpoint poke_row (m : mem) (a : addr) (w : Z) (row : list Z) : mem :=
  match row with
  | [] => m
  | v :: row' => poke_row (write_bytes m a (encode (Z.to_nat w) v)) (a + w) w row'
  end.

Fixpoint poke_rows (m : mem) (a : addr) (stride w : Z) (rows : list (list Z)) : mem :=
  match rows with
  | [] => m
  | r :: rows' => poke_rows (poke_row m a w r) (a + stride) stride w rows'
  end.

Definition peek_row (m : mem) (a : addr) (w : Z) (n : nat) : list Z :=
  map (fun x => load_mem w m (a + x * w)) (zrange 0 n).

Definition peek_rows (m : mem) (a : addr) (stride w : Z) (cols rows : nat) : list (list Z) :=
  map (fun y => peek_row m (a + y * stride) w cols) (zrange 0 rows).

Definition zero_mem : mem := fun _ => x00.

End Planes.

(* ================================================================== *)
(** * The catalog, the per-frame filter, the pointer mapping and setup *)
(* ================================================================== *)

Module Orient.
Import Mem Planes.

(** Modelled from the spec: [video_transform_t] is declared in vlc_es.h,
    which is not in the module; its eight values are the spec's
    TransformKind. *)
Inductive video_transform_t : Type :=
| TRANSFORM_IDENTITY
| TRANSFORM_HFLIP
| TRANSFORM_VFLIP
| TRANSFORM_R180
| TRANSFORM_R270
| TRANSFORM_R90
| TRANSFORM_TRANSPOSE
| TRANSFORM_ANTI_TRANSPOSE.

Definition is_identity (t : video_transform_t) : bool :=
  match t with TRANSFORM_IDENTITY => true | _ => false end.

(** Modelled from the spec: the macro [ORIENT_IS_SWAP] of vlc_es.h is not in
    the module; the spec's swap class is R90, R270, TRANSPOSE and
    ANTITRANSPOSE. *)
Definition ORIENT_IS_SWAP (t : video_transform_t) : bool :=
  match t with
  | TRANSFORM_R90 | TRANSFORM_R270
  | TRANSFORM_TRANSPOSE | TRANSFORM_ANTI_TRANSPOSE => true
  | _ => false
  end.

Inductive vlc_result : Type := VLC_SUCCESS | VLC_ENOTSUP | VLC_ENOMEM.

(** [void ( * )(void *, ptrdiff_t, const void *, ptrdiff_t, int, int)];
    [None] is the null pointer. *)
Definition plane_fn : Type := addr -> Z -> addr -> Z -> Z -> Z -> state -> state.
Definition plane_transform_cb : Type := option plane_fn.

Record transform_description_t : Type := mkDesc {
  plane8 : plane_transform_cb;
  plane16 : plane_transform_cb;
  plane32 : plane_transform_cb
}.

Definition DESC (g : Z -> plane_fn) : transform_description_t :=
  mkDesc (Some (g 8)) (Some (g 16)) (Some (g 32)).

(** The static array; the slot of [TRANSFORM_IDENTITY] has no initializer and
    holds null pointers. *)
Definition descriptions (t : video_transform_t) : transform_description_t :=
  match t with
  | TRANSFORM_R90 => DESC r90
  | TRANSFORM_R180 => DESC r180
  | TRANSFORM_R270 => DESC r270
  | TRANSFORM_HFLIP => DESC hflip
  | TRANSFORM_VFLIP => DESC vflip_bits
  | TRANSFORM_TRANSPOSE => DESC transpose
  | TRANSFORM_ANTI_TRANSPOSE => DESC antitranspose
  | TRANSFORM_IDENTITY => mkDesc None None None
  end.

(** [plane_transform_cb plane[PICTURE_PLANE_MAX]] as a map from indices. *)
Record filter_sys_t : Type := mkSys {
  transform : video_transform_t;
  plane : Z -> plane_transform_cb
}.

Definition set_plane (sys : filter_sys_t) (i : Z) (f : plane_transform_cb) : filter_sys_t :=
  mkSys (transform sys) (fun j => if Z.eqb j i then f else plane sys j).

Definition set_transform (sys : filter_sys_t) (t : video_transform_t) : filter_sys_t :=
  mkSys t (plane sys).

Inductive callback : Type := cb_Filter | cb_Mouse.

Record vlc_filter_operations : Type := mkOps {
  filter_video : callback;
  video_mouse : callback
}.

Definition vlc_fourcc_t : Type := Z.

Record vlc_rational_t : Type := mkRational { num : Z; den : Z }.

Record plane_ratio : Type := mkRatio { w : vlc_rational_t; h : vlc_rational_t }.

Record vlc_chroma_description_t : Type := mkChroma {
  plane_count : Z;
  p : Z -> plane_ratio;
  pixel_size : Z;
  pixel_bits : Z
}.

Record plane_t : Type := mkPlane {
  p_pixels : addr;
  i_pitch : Z;
  i_pixel_pitch : Z;
  i_visible_pitch : Z;
  i_visible_lines : Z
}.

(** The switch of [Open] on [chroma->pixel_size]; [None] is its default
    case, which returns [VLC_ENOTSUP]. *)
Definition first_plane (sys : filter_sys_t) (dsc : transform_description_t)
    (pixel_size : Z) : option filter_sys_t :=
  match pixel_size with
  | 1 => Some (set_plane sys 0 (plane8 dsc))
  | 2 => Some (set_plane sys 0 (plane16 dsc))
  | 4 => Some (set_plane sys 0 (plane32 dsc))
  | _ => None
  end.

(** 32-bit [unsigned] multiplication. *)
Definition umul (a b : Z) : Z := (a * b) mod 2 ^ 32.

(** The early-return loop of [Open] over the planes of the chroma
    description: [true] when it returns from inside the loop. *)
Fixpoint non_square_from (k : nat) (i : Z) (chroma : vlc_chroma_description_t) : bool :=
  match k with
  | O => false
  | S k' =>
      if negb (umul (num (w (p chroma i))) (den (h (p chroma i))) =?
               umul (num (h (p chroma i))) (den (w (p chroma i))))
      then true
      else non_square_from k' (i + 1) chroma
  end.

Section Collaborators.

(** What the module takes from the rest of VLC. *)
Variable PICTURE_PLANE_MAX : Z.
Variables VLC_CODEC_NV12 VLC_CODEC_NV21 : vlc_fourcc_t.
Variable video_orientation_t : Type.
Variable picture_props : Type.
Variable mouse_other : Type.

Record video_format_t : Type := mkFormat {
  i_chroma : vlc_fourcc_t;
  i_width : Z;
  i_height : Z;
  i_x_offset : Z;
  i_y_offset : Z;
  i_visible_width : Z;
  i_visible_height : Z;
  orientation : video_orientation_t
}.

Record filter_t : Type := mkFilter {
  fmt_in : video_format_t;
  fmt_out : video_format_t;
  ops : option vlc_filter_operations;
  p_sys : option filter_sys_t
}.

Record picture_t : Type := mkPicture {
  pic_p : Z -> plane_t;
  i_planes : Z;
  pic_props : picture_props
}.

Record vlc_mouse_t : Type := mkMouse {
  i_x : Z;
  i_y : Z;
  m_other : mouse_other
}.

Variable video_format_GetTransform :
  video_orientation_t -> video_orientation_t -> video_transform_t.
Variable video_format_TransformBy :
  video_format_t -> video_transform_t -> video_format_t.
Variable vlc_fourcc_GetChromaDescription :
  vlc_fourcc_t -> option vlc_chroma_description_t.
(** The block returned by [vlc_obj_malloc], its contents unspecified; [None]
    when the allocation fails. *)
Variable vlc_obj_malloc : filter_t -> option filter_sys_t.

(** ** Filter *)

Inductive call : Type :=
| CallNewPicture
| CallPlane (i : Z)
| CallCopyProperties
| CallRelease (pic : picture_t).

Record world : Type := mkWorld { w_st : state; w_calls : list call }.

Definition called (c : call) (wd : world) : world :=
  mkWorld (w_st wd) (w_calls wd ++ [c]).

Definition picture_CopyProperties (dst src : picture_t) : picture_t :=
  mkPicture (pic_p dst) (i_planes dst) (pic_props src).

(** One iteration of the plane loop; [None] when a null pointer is used. *)
Definition Filter_plane (sys : option filter_sys_t) (dst src : picture_t)
    (i : Z) (wd : option world) : option world :=
  match wd, sys with
  | Some wd, Some sys =>
      match plane sys i with
      | Some fn =>
          Some (mkWorld
                  (fn (p_pixels (pic_p dst i)) (i_pitch (pic_p dst i))
                      (p_pixels (pic_p src i)) (i_pitch (pic_p src i))
                      (Z.quot (i_visible_pitch (pic_p src i))
                              (i_pixel_pitch (pic_p src i)))
                      (i_visible_lines (pic_p src i))
                      (w_st wd))
                  (w_calls wd ++ [CallPlane i]))
      | None => None
      end
  | _, _ => None
  end.

(** [fresh] is what [filter_NewPicture] returns for this call.  The result is
    [None] when the code runs into a null pointer. *)
Definition Filter (filter : filter_t) (src : picture_t)
    (fresh : option picture_t) (wd : world)
    : option (option picture_t * world) :=
  let sys := p_sys filter in
  let dst := fresh in
  let wd := called CallNewPicture wd in
  let body :=
    match dst with
    | Some d =>
        match for_loop (i_planes src) (Filter_plane sys d src) (Some wd) with
        | Some wd =>
            Some (Some (picture_CopyProperties d src),
                  called CallCopyProperties wd)
        | None => None
        end
    | None => Some (None, wd)
    end in
  match body with
  | Some (dst, wd) => Some (dst, called (CallRelease src) wd)
  | None => None
  end.

(** ** Mouse *)

(** The two switches; [None] is [vlc_assert_unreachable ()]. *)
Definition Mouse_sx (t : video_transform_t) (dw dh dx dy : Z) : option Z :=
  match t with
  | TRANSFORM_HFLIP | TRANSFORM_R180 => Some (dw - 1 - dx)
  | TRANSFORM_VFLIP => Some dx
  | TRANSFORM_TRANSPOSE | TRANSFORM_R90 => Some dy
  | TRANSFORM_R270 | TRANSFORM_ANTI_TRANSPOSE => Some (dh - 1 - dy)
  | _ => None
  end.

Definition Mouse_sy (t : video_transform_t) (dw dh dx dy : Z) : option Z :=
  match t with
  | TRANSFORM_HFLIP => Some dy
  | TRANSFORM_VFLIP | TRANSFORM_R180 => Some (dh - 1 - dy)
  | TRANSFORM_TRANSPOSE | TRANSFORM_R270 => Some dx
  | TRANSFORM_R90 | TRANSFORM_ANTI_TRANSPOSE => Some (dw - 1 - dx)
  | _ => None
  end.

Definition Mouse (filter : filter_t) (mouse mold : vlc_mouse_t)
    : option (vlc_result * vlc_mouse_t) :=
  let fmt := fmt_out filter in
  match p_sys filter with
  | None => None
  | Some sys =>
      let dw := i_visible_width fmt in
      let dh := i_visible_height fmt in
      let dx := i_x mouse in
      let dy := i_y mouse in
      match Mouse_sx (transform sys) dw dh dx dy with
      | None => None
      | Some sx =>
          match Mouse_sy (transform sys) dw dh dx dy with
          | None => None
          | Some sy => Some (VLC_SUCCESS, mkMouse sx sy (m_other mouse))
          end
      end
  end.

(** ** Open *)

Definition filter_ops : vlc_filter_operations := mkOps cb_Filter cb_Mouse.

Definition geometry_differs (dst src_trans : video_format_t) : bool :=
  negb (i_chroma dst =? i_chroma src_trans) ||
  negb (i_width dst =? i_width src_trans) ||
  negb (i_visible_width dst =? i_visible_width src_trans) ||
  negb (i_height dst =? i_height src_trans) ||
  negb (i_visible_height dst =? i_visible_height src_trans) ||
  negb (i_x_offset dst =? i_x_offset src_trans) ||
  negb (i_y_offset dst =? i_y_offset src_trans).

Definition Open (filter : filter_t) : vlc_result * filter_t :=
  let src := fmt_in filter in
  let dst := fmt_out filter in
  let transform :=
    video_format_GetTransform (orientation src) (orientation dst) in
  if is_identity transform then (VLC_ENOTSUP, filter) else
  let src_trans := video_format_TransformBy src transform in
  if geometry_differs dst src_trans then (VLC_ENOTSUP, filter) else
  match vlc_fourcc_GetChromaDescription (i_chroma src) with
  | None => (VLC_ENOTSUP, filter)
  | Some chroma =>
      match vlc_obj_malloc filter with
      | None => (VLC_ENOMEM, filter)
      | Some sys =>
          let dsc := descriptions transform in
          let sys := set_transform sys transform in
          match first_plane sys dsc (pixel_size chroma) with
          | None => (VLC_ENOTSUP, filter)
          | Some sys =>
              let sys :=
                for_iter (Z.to_nat (PICTURE_PLANE_MAX - 1)) 1
                  (fun i sys => set_plane sys i (plane sys 0)) sys in
              if ORIENT_IS_SWAP transform &&
                 non_square_from (Z.to_nat (plane_count chroma)) 0 chroma
              then (VLC_ENOTSUP, filter)
              else
                let sys :=
                  if (i_chroma src =? VLC_CODEC_NV12) ||
                     (i_chroma src =? VLC_CODEC_NV21)
                  then set_plane sys 1 (plane16 dsc)
                  else sys in
                (VLC_SUCCESS,
                 mkFilter (fmt_in filter) (fmt_out filter)
                          (Some filter_ops) (Some sys))
          end
      end
  end.

End Collaborators.

Arguments mkFormat {video_orientation_t}.
Arguments i_chroma {video_orientation_t}.
Arguments i_width {video_orientation_t}.
Arguments i_height {video_orientation_t}.
Arguments i_x_offset {video_orientation_t}.
Arguments i_y_offset {video_orientation_t}.
Arguments i_visible_width {video_orientation_t}.
Arguments i_visible_height {video_orientation_t}.
Arguments orientation {video_orientation_t}.
Arguments mkFilter {video_orientation_t}.
Arguments fmt_in {video_orientation_t}.
Arguments fmt_out {video_orientation_t}.
Arguments ops {video_orientation_t}.
Arguments p_sys {video_orientation_t}.
Arguments mkPicture {picture_props}.
Arguments pic_p {picture_props}.
Arguments i_planes {picture_props}.
Arguments pic_props {picture_props}.
Arguments mkMouse {mouse_other}.
Arguments i_x {mouse_other}.
Arguments i_y {mouse_other}.
Arguments m_other {mouse_other}.
Arguments CallNewPicture {picture_props}.
Arguments CallPlane {picture_props}.
Arguments CallCopyProperties {picture_props}.
Arguments CallRelease {picture_props}.
Arguments mkWorld {picture_props}.
Arguments w_st {picture_props}.
Arguments w_calls {picture_props}.
Arguments called {picture_props}.
Arguments picture_CopyProperties {picture_props}.
Arguments Filter_plane {picture_props}.
Arguments Filter {video_orientation_t picture_props}.
Arguments Mouse {video_orientation_t mouse_other}.
Arguments geometry_differs {video_orientation_t}.
Arguments Open PICTURE_PLANE_MAX VLC_CODEC_NV12 VLC_CODEC_NV21
  {video_orientation_t}.

End Orient.

(* ================================================================== *)
(** * What the plane functions are checked against *)
(* ================================================================== *)

Module Layout.
Import Mem Planes Orient.

(** The copies of a row loop that advances the source pointer by [ds] and
    the destination pointer by [dd] after each row. *)
Fixpoint loop_copies (k : nat) (s d : addr) (ds dd : Z)
    (row : addr -> addr -> list (addr * addr)) : list (addr * addr) :=
  match k with
  | O => []
  | S k' => row s d ++ loop_copies k' (s + ds) (d + dd) ds dd row
  end.

(** Where a plane function puts the element it reads at column [x] of row [y]
    of a [width] x [height] source: (column, row) in the destination
    (lemma [PlaneFacts.entry_moves]). *)
Definition forward (t : video_transform_t) (width height x y : Z) : Z * Z :=
  match t with
  | TRANSFORM_IDENTITY => (x, y)
  | TRANSFORM_HFLIP => (width - 1 - x, y)
  | TRANSFORM_VFLIP => (x, height - 1 - y)
  | TRANSFORM_R180 => (width - 1 - x, height - 1 - y)
  | TRANSFORM_TRANSPOSE => (y, x)
  | TRANSFORM_R90 => (height - 1 - y, x)
  | TRANSFORM_R270 => (y, width - 1 - x)
  | TRANSFORM_ANTI_TRANSPOSE => (height - 1 - y, width - 1 - x)
  end.

(** Width and height of the destination plane. *)
Definition dst_width (t : video_transform_t) (width height : Z) : Z :=
  if ORIENT_IS_SWAP t then height else width.

Definition dst_height (t : video_transform_t) (width height : Z) : Z :=
  if ORIENT_IS_SWAP t then width else height.

(** [l] holds one copy per source element, from its place in the source to
    its place in the destination. *)
Definition copies_of (t : video_transform_t) (w : Z) (dst : addr) (ds : Z)
    (src : addr) (ss : Z) (width height : Z) (l : list (addr * addr)) : Prop :=
  forall s d, In (s, d) l <->
    exists x y, 0 <= x < width /\ 0 <= y < height /\
      s = at_xy src ss w x y /\
      d = at_xy dst ds w (fst (forward t width height x y))
                         (snd (forward t width height x y)).

(** The catalog entries of a transform, with their element width in bits. *)
Definition entries (t : video_transform_t) : list (Z * plane_transform_cb) :=
  [(8, plane8 (descriptions t));
   (16, plane16 (descriptions t));
   (32, plane32 (descriptions t))].

(** An entry copies elements of its own width, or, for the vertical flip,
    single bytes over rows of [width * elt bits] bytes. *)
Definition granularity (t : video_transform_t) (bits width w' width' : Z) : Prop :=
  (w' = elt bits /\ width' = width) \/
  (t = TRANSFORM_VFLIP /\ w' = 1 /\ width' = width * elt bits).

(** The two planes of a call share no byte. *)
Definition planes_apart (t : video_transform_t) (w : Z) (dst : addr) (ds : Z)
    (src : addr) (ss : Z) (width height : Z) : Prop :=
  forall a, in_plane src ss w width height a ->
            in_plane dst ds w (dst_width t width height)
                     (dst_height t width height) a -> False.

(** An access stays inside the visible rectangle of its plane. *)
Definition access_ok (t : video_transform_t) (w : Z) (dst : addr) (ds : Z)
    (src : addr) (ss : Z) (width height : Z) (e : event) : Prop :=
  match e with
  | Rd a => in_plane src ss w width height a
  | Wr a => in_plane dst ds w (dst_width t width height)
                     (dst_height t width height) a
  end.

(** The element widths the module instantiates: [TRANSFORMS(8)],
    [TRANSFORMS(16)], [TRANSFORMS(32)]. *)
Definition width_ok (bits : Z) : Prop := bits = 8 \/ bits = 16 \/ bits = 32.

(** A call on two well-formed planes: pitches are multiples of the element
    size and at least one visible row long, and the planes share no byte. *)
Definition call_ok (t : video_transform_t) (bits : Z) (dst : addr) (ds : Z)
    (src : addr) (ss : Z) (width height : Z) : Prop :=
  width_ok bits /\ 0 <= width /\ 0 <= height /\
  (elt bits | ss) /\ (elt bits | ds) /\
  width * elt bits <= ss /\
  dst_width t width height * elt bits <= ds /\
  planes_apart t (elt bits) dst ds src ss width height.

(** The mapping table of the pointer mapper as the spec gives it: the
    transform, then the source coordinates (sx, sy) of the destination point
    (dx, dy) in a destination of [dw] x [dh]. *)
Definition mapping_table (dw dh dx dy : Z) : list (video_transform_t * (Z * Z)) :=
  [(TRANSFORM_HFLIP, (dw - 1 - dx, dy));
   (TRANSFORM_VFLIP, (dx, dh - 1 - dy));
   (TRANSFORM_R180, (dw - 1 - dx, dh - 1 - dy));
   (TRANSFORM_TRANSPOSE, (dy, dx));
   (TRANSFORM_R90, (dy, dw - 1 - dx));
   (TRANSFORM_R270, (dh - 1 - dy, dx));
   (TRANSFORM_ANTI_TRANSPOSE, (dh - 1 - dy, dw - 1 - dx))].

(** The entry for the element size of the primary plane. *)
Definition plane_for (dsc : transform_description_t) (pixel_size : Z)
    : plane_transform_cb :=
  if pixel_size =? 1 then plane8 dsc
  else if pixel_size =? 2 then plane16 dsc
  else if pixel_size =? 4 then plane32 dsc
  else None.

(** The dispatch rule of the spec: every plane takes the entry for the
    element size of the primary plane, except the second plane of a packed
    chroma format ([nv]), which takes the 16-bit entry. *)
Definition dispatch (t : video_transform_t) (nv : bool) (pixel_size i : Z)
    : plane_transform_cb :=
  if (i =? 1) && nv then plane16 (descriptions t)
  else plane_for (descriptions t) pixel_size.

(** In every plane of the chroma description the horizontal and the vertical
    sample ratio are equal, that is, in proportion 1:1. *)
Definition square_samples (chroma : vlc_chroma_description_t) : Prop :=
  forall i, 0 <= i < plane_count chroma ->
    num (w (p chroma i)) * den (h (p chroma i)) =
    num (h (p chroma i)) * den (w (p chroma i)).

(** The ratios of a chroma description are small numbers, so that their
    [unsigned] products do not wrap. *)
Definition small_ratios (chroma : vlc_chroma_description_t) : Prop :=
  forall i, 0 <= i < plane_count chroma ->
    0 <= num (w (p chroma i)) < 2 ^ 16 /\ 0 <= den (w (p chroma i)) < 2 ^ 16 /\
    0 <= num (h (p chroma i)) < 2 ^ 16 /\ 0 <= den (h (p chroma i)) < 2 ^ 16.

Section Compatibility.

Variable video_orientation_t : Type.
Variable picture_props : Type.
Variable video_format_GetTransform :
  video_orientation_t -> video_orientation_t -> video_transform_t.
Variable video_format_TransformBy :
  video_format_t video_orientation_t -> video_transform_t ->
  video_format_t video_orientation_t.
Variable vlc_fourcc_GetChromaDescription :
  vlc_fourcc_t -> option vlc_chroma_description_t.

Definition same_geometry (dst src_trans : video_format_t video_orientation_t) : Prop :=
  i_chroma dst = i_chroma src_trans /\
  i_width dst = i_width src_trans /\
  i_visible_width dst = i_visible_width src_trans /\
  i_height dst = i_height src_trans /\
  i_visible_height dst = i_visible_height src_trans /\
  i_x_offset dst = i_x_offset src_trans /\
  i_y_offset dst = i_y_offset src_trans.

(** The five conditions under which the spec lets a transform through. *)
Definition accepted (filter : filter_t video_orientation_t) : Prop :=
  let t := video_format_GetTransform (orientation (fmt_in filter))
                                     (orientation (fmt_out filter)) in
  t <> TRANSFORM_IDENTITY /\
  same_geometry (fmt_out filter) (video_format_TransformBy (fmt_in filter) t) /\
  exists chroma,
    vlc_fourcc_GetChromaDescription (i_chroma (fmt_in filter)) = Some chroma /\
    (ORIENT_IS_SWAP t = true -> square_samples chroma) /\
    (pixel_size chroma = 1 \/ pixel_size chroma = 2 \/ pixel_size chroma = 4).

(** The pictures released by a sequence of calls. *)
Fixpoint released (calls : list (call picture_props)) : list (picture_t picture_props) :=
  match calls with
  | [] => []
  | CallRelease pic :: calls' => pic :: released calls'
  | _ :: calls' => released calls'
  end.

End Compatibility.

(** A plane given by its rows, in a memory that is zero elsewhere, with an
    empty log. *)
Definition plane_at (base : addr) (stride w : Z) (rows : list (list Z)) : state :=
  mkState (poke_rows zero_mem base stride w rows) [].

End Layout.

(* ================================================================== *)
(** * A small instance of the module's environment *)
(* ================================================================== *)

Module Samples.
Import Mem Planes Orient Layout.

Definition NV12 : vlc_fourcc_t := 842094158.   (* 'N','V','1','2' *)
Definition NV21 : vlc_fourcc_t := 825382478.   (* 'N','V','2','1' *)
Definition I422 : vlc_fourcc_t := 842150985.   (* 'I','4','2','2' *)

Definition format (chroma : vlc_fourcc_t) (width height : Z) (o : bool)
    : video_format_t bool :=
  mkFormat chroma width height 0 0 width height o.

(** Orientations are [false] (normal) and [true] (rotated by 90 degrees). *)
Definition GetTransform (src dst : bool) : video_transform_t :=
  if xorb src dst then TRANSFORM_R90 else TRANSFORM_IDENTITY.

Definition TransformBy (f : video_format_t bool) (t : video_transform_t)
    : video_format_t bool :=
  if ORIENT_IS_SWAP t
  then mkFormat (i_chroma f) (i_height f) (i_width f) (i_y_offset f)
                (i_x_offset f) (i_visible_height f) (i_visible_width f)
                (negb (orientation f))
  else f.

Definition ratio (wn wd hn hd : Z) : plane_ratio :=
  mkRatio (mkRational wn wd) (mkRational hn hd).

(** NV12 and NV21 halve both directions of their second plane; I422 halves
    only the horizontal direction of its chroma planes. *)
Definition GetChromaDescription (c : vlc_fourcc_t) : option vlc_chroma_description_t :=
  if (c =? NV12) || (c =? NV21)
  then Some (mkChroma 2 (fun i => if i =? 0 then ratio 1 1 1 1 else ratio 1 2 1 2) 1 8)
  else if c =? I422
  then Some (mkChroma 3 (fun i => if i =? 0 then ratio 1 1 1 1 else ratio 1 2 1 1) 1 8)
  else None.

Definition blank_sys : filter_sys_t := mkSys TRANSFORM_IDENTITY (fun _ => None).

Definition obj_malloc (f : filter_t bool) : option filter_sys_t := Some blank_sys.

Definition open (f : filter_t bool) : vlc_result * filter_t bool :=
  Open 5 NV12 NV21 GetTransform TransformBy GetChromaDescription obj_malloc f.

(** A 4 x 2 picture to be shown rotated, as 2 x 4. *)
Definition proposal (chroma : vlc_fourcc_t) : filter_t bool :=
  mkFilter (format chroma 4 2 false) (format chroma 2 4 true) None None.

(** A configured filter for the pointer mapping. *)
Definition configured (t : video_transform_t) (dw dh : Z) : filter_t bool :=
  mkFilter (format NV12 dw dh false) (format NV12 dw dh false)
           (Some filter_ops) (Some (mkSys t (fun _ => None))).

Definition luma (base : addr) (pitch width height : Z) : picture_t unit :=
  mkPicture (fun _ => mkPlane base pitch 1 width height) 1 tt.

End Samples.

(* ================================================================== *)
(** * Further notions: sequences of calls, access counts, whole frames *)
(* ================================================================== *)

Module Frames.
Import Mem Planes Orient Layout.

(** The transform that one call of [t1] followed by one call of [t2]
    amounts to. *)
Definition then_transform (t1 t2 : video_transform_t) : video_transform_t :=
  match t1, t2 with
  | TRANSFORM_IDENTITY, t | t, TRANSFORM_IDENTITY => t
  | TRANSFORM_HFLIP, TRANSFORM_HFLIP => TRANSFORM_IDENTITY
  | TRANSFORM_HFLIP, TRANSFORM_VFLIP => TRANSFORM_R180
  | TRANSFORM_HFLIP, TRANSFORM_R180 => TRANSFORM_VFLIP
  | TRANSFORM_HFLIP, TRANSFORM_R270 => TRANSFORM_TRANSPOSE
  | TRANSFORM_HFLIP, TRANSFORM_R90 => TRANSFORM_ANTI_TRANSPOSE
  | TRANSFORM_HFLIP, TRANSFORM_TRANSPOSE => TRANSFORM_R270
  | TRANSFORM_HFLIP, TRANSFORM_ANTI_TRANSPOSE => TRANSFORM_R90
  | TRANSFORM_VFLIP, TRANSFORM_HFLIP => TRANSFORM_R180
  | TRANSFORM_VFLIP, TRANSFORM_VFLIP => TRANSFORM_IDENTITY
  | TRANSFORM_VFLIP, TRANSFORM_R180 => TRANSFORM_HFLIP
  | TRANSFORM_VFLIP, TRANSFORM_R270 => TRANSFORM_ANTI_TRANSPOSE
  | TRANSFORM_VFLIP, TRANSFORM_R90 => TRANSFORM_TRANSPOSE
  | TRANSFORM_VFLIP, TRANSFORM_TRANSPOSE => TRANSFORM_R90
  | TRANSFORM_VFLIP, TRANSFORM_ANTI_TRANSPOSE => TRANSFORM_R270
  | TRANSFORM_R180, TRANSFORM_HFLIP => TRANSFORM_VFLIP
  | TRANSFORM_R180, TRANSFORM_VFLIP => TRANSFORM_HFLIP
  | TRANSFORM_R180, TRANSFORM_R180 => TRANSFORM_IDENTITY
  | TRANSFORM_R180, TRANSFORM_R270 => TRANSFORM_R90
  | TRANSFORM_R180, TRANSFORM_R90 => TRANSFORM_R270
  | TRANSFORM_R180, TRANSFORM_TRANSPOSE => TRANSFORM_ANTI_TRANSPOSE
  | TRANSFORM_R180, TRANSFORM_ANTI_TRANSPOSE => TRANSFORM_TRANSPOSE
  | TRANSFORM_R270, TRANSFORM_HFLIP => TRANSFORM_ANTI_TRANSPOSE
  | TRANSFORM_R270, TRANSFORM_VFLIP => TRANSFORM_TRANSPOSE
  | TRANSFORM_R270, TRANSFORM_R180 => TRANSFORM_R90
  | TRANSFORM_R270, TRANSFORM_R270 => TRANSFORM_R180
  | TRANSFORM_R270, TRANSFORM_R90 => TRANSFORM_IDENTITY
  | TRANSFORM_R270, TRANSFORM_TRANSPOSE => TRANSFORM_HFLIP
  | TRANSFORM_R270, TRANSFORM_ANTI_TRANSPOSE => TRANSFORM_VFLIP
  | TRANSFORM_R90, TRANSFORM_HFLIP => TRANSFORM_TRANSPOSE
  | TRANSFORM_R90, TRANSFORM_VFLIP => TRANSFORM_ANTI_TRANSPOSE
  | TRANSFORM_R90, TRANSFORM_R180 => TRANSFORM_R270
  | TRANSFORM_R90, TRANSFORM_R270 => TRANSFORM_IDENTITY
  | TRANSFORM_R90, TRANSFORM_R90 => TRANSFORM_R180
  | TRANSFORM_R90, TRANSFORM_TRANSPOSE => TRANSFORM_VFLIP
  | TRANSFORM_R90, TRANSFORM_ANTI_TRANSPOSE => TRANSFORM_HFLIP
  | TRANSFORM_TRANSPOSE, TRANSFORM_HFLIP => TRANSFORM_R90
  | TRANSFORM_TRANSPOSE, TRANSFORM_VFLIP => TRANSFORM_R270
  | TRANSFORM_TRANSPOSE, TRANSFORM_R180 => TRANSFORM_ANTI_TRANSPOSE
  | TRANSFORM_TRANSPOSE, TRANSFORM_R270 => TRANSFORM_VFLIP
  | TRANSFORM_TRANSPOSE, TRANSFORM_R90 => TRANSFORM_HFLIP
  | TRANSFORM_TRANSPOSE, TRANSFORM_TRANSPOSE => TRANSFORM_IDENTITY
  | TRANSFORM_TRANSPOSE, TRANSFORM_ANTI_TRANSPOSE => TRANSFORM_R180
  | TRANSFORM_ANTI_TRANSPOSE, TRANSFORM_HFLIP => TRANSFORM_R270
  | TRANSFORM_ANTI_TRANSPOSE, TRANSFORM_VFLIP => TRANSFORM_R90
  | TRANSFORM_ANTI_TRANSPOSE, TRANSFORM_R180 => TRANSFORM_TRANSPOSE
  | TRANSFORM_ANTI_TRANSPOSE, TRANSFORM_R270 => TRANSFORM_HFLIP
  | TRANSFORM_ANTI_TRANSPOSE, TRANSFORM_R90 => TRANSFORM_VFLIP
  | TRANSFORM_ANTI_TRANSPOSE, TRANSFORM_TRANSPOSE => TRANSFORM_R180
  | TRANSFORM_ANTI_TRANSPOSE, TRANSFORM_ANTI_TRANSPOSE => TRANSFORM_IDENTITY
  end.

(** The bytes read and the bytes written by a log, in order. *)
Fixpoint reads (log : list event) : list addr :=
  match log with
  | [] => []
  | Rd a :: log' => a :: reads log'
  | Wr _ :: log' => reads log'
  end.

Fixpoint writes (log : list event) : list addr :=
  match log with
  | [] => []
  | Wr a :: log' => a :: writes log'
  | Rd _ :: log' => writes log'
  end.

(** The width [Filter] passes to a plane function. *)
Definition plane_width (pl : plane_t) : Z :=
  Z.quot (i_visible_pitch pl) (i_pixel_pitch pl).

Section Frame.

Variable picture_props : Type.
Variable t : video_transform_t.
(** Element width, in bits, of the function in each slot of the table. *)
Variable bits_of : Z -> Z.
Variables src d : picture_t picture_props.

(** Visible rectangle of plane [i] of the source, and of the destination. *)
Definition src_rect (i : Z) (a : addr) : Prop :=
  in_plane (p_pixels (pic_p src i)) (i_pitch (pic_p src i)) (elt (bits_of i))
           (plane_width (pic_p src i)) (i_visible_lines (pic_p src i)) a.

Definition dst_rect (i : Z) (a : addr) : Prop :=
  in_plane (p_pixels (pic_p d i)) (i_pitch (pic_p d i)) (elt (bits_of i))
           (dst_width t (plane_width (pic_p src i)) (i_visible_lines (pic_p src i)))
           (dst_height t (plane_width (pic_p src i)) (i_visible_lines (pic_p src i)))
           a.

(** Each plane is a well-formed call of the slot's function, and no
    destination plane shares a byte with another plane of either picture. *)
Definition frame_ok (sys : filter_sys_t) : Prop :=
  transform sys = t /\
  (forall i, 0 <= i < i_planes src ->
     exists fn, plane sys i = Some fn /\
       In (bits_of i, Some fn) (entries t) /\
       call_ok t (bits_of i)
               (p_pixels (pic_p d i)) (i_pitch (pic_p d i))
               (p_pixels (pic_p src i)) (i_pitch (pic_p src i))
               (plane_width (pic_p src i)) (i_visible_lines (pic_p src i))) /\
  (forall i j a, 0 <= i < i_planes src -> 0 <= j < i_planes src -> i <> j ->
     dst_rect j a -> ~ src_rect i a /\ ~ dst_rect i a).

End Frame.

(** A two-plane NV12 picture: 4 x 2 luma bytes and 2 x 1 chroma pairs. *)
Definition nv12_src : picture_t unit :=
  mkPicture (fun i => if i =? 0 then mkPlane 100 4 1 4 2 else mkPlane 300 4 2 4 1)
            2 tt.

(** Its rotation target: 2 x 4 luma bytes and 1 x 2 chroma pairs. *)
Definition nv12_dst : picture_t unit :=
  mkPicture (fun i => if i =? 0 then mkPlane 200 2 1 2 4 else mkPlane 400 2 2 2 2)
            2 tt.

Definition nv12_bits (i : Z) : Z := if i =? 0 then 8 else 16.

(** The sample filter after setup, and its table. *)
Definition nv12_filter : filter_t bool :=
  snd (Samples.open (Samples.proposal Samples.NV12)).

Definition nv12_sys : filter_sys_t :=
  match p_sys nv12_filter with
  | Some sys => sys
  | None => Samples.blank_sys
  end.

(** A memory that holds the two planes of [nv12_src]. *)
Definition nv12_world : world unit :=
  mkWorld
    (mkState (poke_rows (poke_rows zero_mem 100 4 1 [[1; 2; 3; 4]; [5; 6; 7; 8]])
                        300 4 2 [[258; 772]]) [])
    [].

(** An allocator that always fails. *)
Definition no_malloc (f : filter_t bool) : option filter_sys_t := None.

End Frames.

(* ================================================================== *)
(** * Facts about the memory model *)
(* ================================================================== *)

Module MemFacts.
Import Mem.

Lemma byte_to_Z_range (b : byte) : 0 <= byte_to_Z b < 256.
Proof.
  unfold byte_to_Z. pose proof (Byte.to_N_bounded b) as H.
  lia.
Qed.

Lemma byte_of_to_Z (b : byte) (r : Z) : byte_of_Z (byte_to_Z b + 256 * r) = b.
Proof.
  unfold byte_of_Z.
  replace ((byte_to_Z b + 256 * r) mod 256) with (byte_to_Z b).
  - unfold byte_to_Z. rewrite N2Z.id, Byte.of_to_N. reflexivity.
  - pose proof (byte_to_Z_range b).
    replace (byte_to_Z b + 256 * r) with (byte_to_Z b + r * 256) by lia.
    rewrite Z.mod_add by lia. symmetry. apply Z.mod_small. lia.
Qed.

Lemma encode_decode (bs : list byte) : encode (length bs) (decode bs) = bs.
Proof.
  induction bs as [|b bs IH]; cbn [encode decode length]; [reflexivity|].
  rewrite byte_of_to_Z. f_equal.
  pose proof (byte_to_Z_range b).
  replace ((byte_to_Z b + 256 * decode bs) / 256) with (decode bs); [exact IH|].
  replace (byte_to_Z b + 256 * decode bs) with (byte_to_Z b + decode bs * 256) by lia.
  rewrite Z.div_add by lia. rewrite (Z.div_small (byte_to_Z b)) by lia. lia.
Qed.

Lemma read_bytes_length (m : mem) (n : nat) (a : addr) :
  length (read_bytes m a n) = n.
Proof. revert a. induction n; intros; simpl; auto. Qed.

Lemma in_span (n : nat) (a p : addr) :
  In p (span a n) <-> a <= p < a + Z.of_nat n.
Proof.
  revert a. induction n as [|n IH]; intros a; simpl.
  - lia.
  - rewrite IH. lia.
Qed.

Lemma read_bytes_ext (m1 m2 : mem) (n : nat) (a b : addr) :
  (forall k, 0 <= k < Z.of_nat n -> m1 (a + k) = m2 (b + k)) ->
  read_bytes m1 a n = read_bytes m2 b n.
Proof.
  revert a b. induction n as [|n IH]; intros a b H; simpl; [reflexivity|].
  f_equal.
  - specialize (H 0). rewrite !Z.add_0_r in H. apply H. lia.
  - apply IH. intros k Hk.
    replace (a + 1 + k) with (a + (1 + k)) by lia.
    replace (b + 1 + k) with (b + (1 + k)) by lia.
    apply H. lia.
Qed.

Lemma write_bytes_other (bs : list byte) (m : mem) (a p : addr) :
  p < a \/ a + Z.of_nat (length bs) <= p ->
  write_bytes m a bs p = m p.
Proof.
  revert m a. induction bs as [|b bs IH]; intros m a H; simpl; [reflexivity|].
  simpl length in H. rewrite IH by lia.
  unfold upd. destruct (Z.eqb_spec p a); [lia|reflexivity].
Qed.

Lemma write_read_bytes (n : nat) (m m0 : mem) (a s p : addr) :
  a <= p < a + Z.of_nat n ->
  write_bytes m a (read_bytes m0 s n) p = m0 (s + (p - a)).
Proof.
  revert m a s. induction n as [|n IH]; intros m a s H; simpl; [lia|].
  destruct (Z.eq_dec p a) as [->|Hne].
  - rewrite write_bytes_other by lia.
    unfold upd. rewrite Z.eqb_refl. f_equal. lia.
  - rewrite IH by lia. f_equal. lia.
Qed.

(** An element copy moves [w] bytes and leaves every other byte alone. *)
Lemma copy_elem_mem (w : Z) (d s : addr) (st : state) (q : addr) :
  st_mem (copy_elem w d s st) q =
  if (d <=? q) && (q <? d + Z.of_nat (Z.to_nat w))
  then st_mem st (s + (q - d)) else st_mem st q.
Proof.
  unfold copy_elem, load, store, load_mem. simpl.
  set (n := Z.to_nat w).
  rewrite <- (read_bytes_length (st_mem st) n s) at 1.
  rewrite encode_decode.
  destruct (Z.leb_spec d q); destruct (Z.ltb_spec q (d + Z.of_nat n)); simpl.
  - apply write_read_bytes. lia.
  - apply write_bytes_other. rewrite read_bytes_length. lia.
  - apply write_bytes_other. lia.
  - apply write_bytes_other. lia.
Qed.

Lemma copy_elem_log (w : Z) (d s : addr) (st : state) :
  st_log (copy_elem w d s st) =
  st_log st ++ (map Rd (span s (Z.to_nat w)) ++ map Wr (span d (Z.to_nat w))).
Proof. unfold copy_elem, load, store. simpl. rewrite <- app_assoc. reflexivity. Qed.

Lemma load_mem_ext (w : Z) (m1 m2 : mem) (a b : addr) :
  (forall k, 0 <= k < w -> m1 (a + k) = m2 (b + k)) ->
  load_mem w m1 a = load_mem w m2 b.
Proof.
  intros H. unfold load_mem. f_equal. apply read_bytes_ext.
  intros k Hk. apply H. lia.
Qed.

(** ** Loops as folds *)

Lemma for_iter_fold {S : Type} (body : Z -> S -> S) (k : nat) (i : Z) (s : S) :
  for_iter k i body s = fold_left (fun s j => body j s) (zrange i k) s.
Proof.
  revert i s. induction k as [|k IH]; intros i s; simpl; [reflexivity|].
  apply IH.
Qed.

Lemma in_zrange (k : nat) (i j : Z) :
  In j (zrange i k) <-> i <= j < i + Z.of_nat k.
Proof. apply in_span. Qed.

Lemma in_zrange0 (n j : Z) :
  In j (zrange 0 (Z.to_nat n)) <-> 0 <= j < n.
Proof. rewrite in_zrange. lia. Qed.

Lemma run_copies_app (w : Z) (l1 l2 : list (addr * addr)) (st : state) :
  run_copies w (l1 ++ l2) st = run_copies w l2 (run_copies w l1 st).
Proof. unfold run_copies. apply fold_left_app. Qed.

Lemma run_copies_map {A : Type} (w : Z) (f : A -> addr * addr) (l : list A) (st : state) :
  fold_left (fun st x => copy_elem w (snd (f x)) (fst (f x)) st) l st =
  run_copies w (map f l) st.
Proof.
  revert st. induction l as [|x l IH]; intros st; simpl; [reflexivity|].
  rewrite IH. reflexivity.
Qed.

(** ** What a sequence of element copies does *)

Lemma run_copies_log (w : Z) (l : list (addr * addr)) (st : state) :
  st_log (run_copies w l st) = st_log st ++ copies_log w l.
Proof.
  revert st. induction l as [|[s d] l IH]; intros st; simpl.
  - rewrite app_nil_r. reflexivity.
  - unfold run_copies in *. simpl. rewrite IH, copy_elem_log.
    rewrite <- !app_assoc. reflexivity.
Qed.

Lemma run_copies_frame (w : Z) (l : list (addr * addr)) (st : state) (q : addr) :
  (forall s d, In (s, d) l -> q < d \/ d + w <= q) ->
  st_mem (run_copies w l st) q = st_mem st q.
Proof.
  revert st. induction l as [|[s d] l IH]; intros st H; simpl; [reflexivity|].
  unfold run_copies in *. simpl. rewrite IH.
  - rewrite copy_elem_mem.
    destruct (H s d (or_introl eq_refl));
      destruct (Z.leb_spec d q); destruct (Z.ltb_spec q (d + Z.of_nat (Z.to_nat w)));
      simpl; try reflexivity; lia.
  - intros s' d' Hin. apply (H s' d'). right. exact Hin.
Qed.

Section Copies.

Variable w : Z.
Variable l : list (addr * addr).
Hypothesis w_pos : 0 < w.
(** No source element overlaps a destination element. *)
Hypothesis src_dst_apart :
  forall s d s' d', In (s, d) l -> In (s', d') l -> s + w <= d' \/ d' + w <= s.
(** Two copies write the same element from the same source, or write
    elements that do not overlap. *)
Hypothesis dst_apart :
  forall s d s' d', In (s, d) l -> In (s', d') l ->
    (d = d' /\ s = s') \/ d + w <= d' \/ d' + w <= d.

Lemma run_copies_copied (st : state) (s d k : Z) :
  In (s, d) l -> 0 <= k < w ->
  st_mem (run_copies w l st) (d + k) = st_mem st (s + k).
Proof.
  revert st src_dst_apart dst_apart.
  induction l as [|[s0 d0] l0 IH]; intros st Hsd Hdd Hin Hk; [destruct Hin|].
  assert (Hsd' : forall s d s' d', In (s, d) l0 -> In (s', d') l0 ->
                   s + w <= d' \/ d' + w <= s)
    by (intros; eapply Hsd; right; eassumption).
  assert (Hdd' : forall s d s' d', In (s, d) l0 -> In (s', d') l0 ->
                   (d = d' /\ s = s') \/ d + w <= d' \/ d' + w <= d)
    by (intros; eapply Hdd; right; eassumption).
  assert (Hsrc : forall s1 d1, In (s1, d1) (((s0, d0)) :: l0) ->
            st_mem (copy_elem w d0 s0 st) (s1 + k) = st_mem st (s1 + k)).
  { intros s1 d1 H1. rewrite copy_elem_mem.
    destruct (Hsd s1 d1 s0 d0 H1 (or_introl eq_refl));
      destruct (Z.leb_spec d0 (s1 + k));
      destruct (Z.ltb_spec (s1 + k) (d0 + Z.of_nat (Z.to_nat w)));
      simpl; try reflexivity; lia. }
  unfold run_copies. simpl. fold (run_copies w l0 (copy_elem w d0 s0 st)).
  destruct (in_dec (fun a b : addr * addr =>
              match Z.eq_dec (fst a) (fst b), Z.eq_dec (snd a) (snd b) with
              | left e1, left e2 =>
                  left (eq_trans (eq_trans (surjective_pairing a)
                          (f_equal2 pair e1 e2)) (eq_sym (surjective_pairing b)))
              | right n, _ => right (fun e => n (f_equal fst e))
              | _, right n => right (fun e => n (f_equal snd e))
              end) (s, d) l0) as [Hl|Hnl].
  - rewrite (IH (copy_elem w d0 s0 st) Hsd' Hdd' Hl Hk).
    apply (Hsrc s d). right. exact Hl.
  - destruct Hin as [Heq|Hin]; [|contradiction].
    inversion Heq; subst s0 d0.
    rewrite run_copies_frame.
    + rewrite copy_elem_mem.
      destruct (Z.leb_spec d (d + k));
        destruct (Z.ltb_spec (d + k) (d + Z.of_nat (Z.to_nat w)));
        simpl; try lia. f_equal. lia.
    + intros s' d' H'.
      destruct (Hdd s d s' d' (or_introl eq_refl) (or_intror H')) as [[-> ->]|Hd];
        [contradiction|lia].
Qed.

End Copies.

End MemFacts.

(* ================================================================== *)
(** * The plane functions as sequences of element copies *)
(* ================================================================== *)

Module PlaneFacts.
Import Mem Planes Orient Layout MemFacts.

Lemma in_loop_copies (row : addr -> addr -> list (addr * addr)) (ds dd : Z)
    (k : nat) (s d : addr) (e : addr * addr) :
  In e (loop_copies k s d ds dd row) <->
  exists y, 0 <= y < Z.of_nat k /\ In e (row (s + y * ds) (d + y * dd)).
Proof.
  revert s d. induction k as [|k IH]; intros s d; cbn [loop_copies].
  - split; [intros []|intros (y & Hy & _); lia].
  - rewrite in_app_iff, IH. split.
    + intros [H|(y & Hy & H)].
      * exists 0. split; [lia|]. rewrite !Z.add_0_r. exact H.
      * exists (y + 1). split; [lia|].
        replace (s + (y + 1) * ds) with (s + ds + y * ds) by lia.
        replace (d + (y + 1) * dd) with (d + dd + y * dd) by lia. exact H.
    + intros (y & Hy & H). destruct (Z.eq_dec y 0) as [->|Hne].
      * left. rewrite !Z.add_0_r in H. exact H.
      * right. exists (y - 1). split; [lia|].
        replace (s + ds + (y - 1) * ds) with (s + y * ds) by lia.
        replace (d + dd + (y - 1) * dd) with (d + y * dd) by lia. exact H.
Qed.

(** A row loop whose body copies the elements of [row] and then advances the
    two pointers. *)
Lemma row_loop (w ds dd : Z) (row : addr -> addr -> list (addr * addr))
    (body : Z -> cursor -> cursor) :
  (forall i c, body i c =
     mkCursor (c_src c + ds) (c_dst c + dd)
              (run_copies w (row (c_src c) (c_dst c)) (c_st c))) ->
  forall (n : Z) (s d : addr) (st : state),
    c_st (for_loop n body (mkCursor s d st)) =
    run_copies w (loop_copies (Z.to_nat n) s d ds dd row) st.
Proof.
  intros Hbody n. unfold for_loop. generalize 0 as i.
  induction (Z.to_nat n) as [|k IH]; intros i s d st; cbn [for_iter loop_copies].
  - reflexivity.
  - rewrite Hbody. cbn [c_src c_dst c_st]. rewrite IH, run_copies_app. reflexivity.
Qed.

(** The inner loop over the elements of one row. *)
Lemma elements_loop (w : Z) (from to : Z -> addr) (n : Z) (st : state) :
  for_loop n (fun x st => copy_elem w (to x) (from x) st) st =
  run_copies w (map (fun x => (from x, to x)) (zrange 0 (Z.to_nat n))) st.
Proof.
  unfold for_loop. rewrite for_iter_fold.
  rewrite <- (run_copies_map w (fun x => (from x, to x))). reflexivity.
Qed.

Lemma quot_exact (a w : Z) : w <> 0 -> (w | a) -> Z.quot a w * w = a.
Proof. intros Hw [c ->]. rewrite Z.quot_mul by exact Hw. reflexivity. Qed.

Section Signed.
(** [hflip] and [transpose] for strides of either sign, as the derived
    transforms call them. *)

Variable bits : Z.
Hypothesis elt_pos : 0 < elt bits.
Variables (dst : addr) (ds : Z) (src : addr) (ss : Z) (width height : Z).
Hypothesis ds_mult : (elt bits | ds).
Hypothesis ss_mult : (elt bits | ss).

Lemma hflip_copies (st : state) :
  exists l, hflip bits dst ds src ss width height st = run_copies (elt bits) l st /\
    forall s d, In (s, d) l <->
      exists x y, 0 <= x < width /\ 0 <= y < height /\
        s = at_xy src ss (elt bits) x y /\
        d = at_xy dst ds (elt bits) (width - 1 - x) y.
Proof.
  set (w := elt bits) in *.
  set (row := fun s d : addr =>
         map (fun x => (s + x * w, d + (- x) * w)) (zrange 0 (Z.to_nat width))).
  exists (loop_copies (Z.to_nat height) src (dst + (width - 1) * w) ss ds row).
  split.
  - unfold hflip. fold (elt bits). fold w.
    apply (row_loop w ss ds row).
    intros i c. rewrite elements_loop. fold (row (c_src c) (c_dst c)).
    rewrite !quot_exact by (assumption || lia). reflexivity.
  - intros s d. rewrite in_loop_copies. unfold row, at_xy. split.
    + intros (y & Hy & H). apply in_map_iff in H. destruct H as (x & Hx & H).
      apply in_zrange0 in H. injection Hx as <- <-.
      exists x, y. repeat split; lia.
    + intros (x & y & Hx & Hy & -> & ->). exists y. split; [lia|].
      apply in_map_iff. exists x. split; [f_equal; lia|].
      apply in_zrange0. lia.
Qed.

Lemma transpose_copies (st : state) :
  exists l, transpose bits dst ds src ss width height st = run_copies (elt bits) l st /\
    forall s d, In (s, d) l <->
      exists x y, 0 <= x < width /\ 0 <= y < height /\
        s = at_xy src ss (elt bits) x y /\
        d = at_xy dst ds (elt bits) y x.
Proof.
  set (w := elt bits) in *.
  set (row := fun s d : addr =>
         map (fun x => (s + x * w, d + (x * Z.quot ds w) * w))
             (zrange 0 (Z.to_nat width))).
  exists (loop_copies (Z.to_nat height) src dst ss w row).
  split.
  - unfold transpose. fold (elt bits). fold w.
    apply (row_loop w ss w row).
    intros i c. rewrite elements_loop. fold (row (c_src c) (c_dst c)).
    rewrite !quot_exact, Z.mul_1_l by (assumption || lia). reflexivity.
  - intros s d. rewrite in_loop_copies. unfold row, at_xy.
    assert (Hq : forall x, x * Z.quot ds w * w = x * ds)
      by (intros x; rewrite <- Z.mul_assoc, quot_exact by (assumption || lia);
          reflexivity).
    split.
    + intros (y & Hy & H). apply in_map_iff in H. destruct H as (x & Hx & H).
      apply in_zrange0 in H. injection Hx as <- <-.
      exists x, y. rewrite Hq. repeat split; lia.
    + intros (x & y & Hx & Hy & -> & ->). exists y. split; [lia|].
      apply in_map_iff. exists x. rewrite Hq. split; [f_equal; lia|].
      apply in_zrange0. lia.
Qed.

End Signed.

Lemma divide_opp (w a : Z) : (w | a) -> (w | a * -1).
Proof. intros [c ->]. exists (- c). lia. Qed.

(** Re-indexes the rows or columns of a membership characterisation. *)
Ltac reindex Hin X Y :=
  let s := fresh "s" in
  let d := fresh "d" in
  let x := fresh "x" in
  let y := fresh "y" in
  intros s d; rewrite Hin; unfold forward, at_xy; cbn [fst snd];
  split; intros (x & y & ? & ? & -> & ->);
  exists (X x), (Y y); repeat split; lia.

Section Entries.
(** Each entry of the catalog, for pitches that are multiples of the element
    size. *)

Variable bits : Z.
Hypothesis elt_pos : 0 < elt bits.
Variables (dst : addr) (ds : Z) (src : addr) (ss : Z) (width height : Z).
Hypothesis ds_mult : (elt bits | ds).
Hypothesis ss_mult : (elt bits | ss).
Variable st : state.

Lemma hflip_copies_of :
  exists l, hflip bits dst ds src ss width height st = run_copies (elt bits) l st /\
    copies_of TRANSFORM_HFLIP (elt bits) dst ds src ss width height l.
Proof.
  destruct (hflip_copies bits elt_pos dst ds src ss width height
              ds_mult ss_mult st) as (l & Hrun & Hin).
  exists l. split; [exact Hrun|]. exact Hin.
Qed.

Lemma transpose_copies_of :
  exists l, transpose bits dst ds src ss width height st = run_copies (elt bits) l st /\
    copies_of TRANSFORM_TRANSPOSE (elt bits) dst ds src ss width height l.
Proof.
  destruct (transpose_copies bits elt_pos dst ds src ss width height
              ds_mult ss_mult st) as (l & Hrun & Hin).
  exists l. split; [exact Hrun|]. exact Hin.
Qed.

Lemma r180_copies_of :
  exists l, r180 bits dst ds src ss width height st = run_copies (elt bits) l st /\
    copies_of TRANSFORM_R180 (elt bits) dst ds src ss width height l.
Proof.
  unfold r180.
  destruct (hflip_copies bits elt_pos dst ds (src + (height - 1) * ss) (ss * -1)
              width height ds_mult (divide_opp _ _ ss_mult) st)
    as (l & Hrun & Hin).
  exists l. split; [exact Hrun|].
  reindex Hin (fun x : Z => x) (fun y : Z => height - 1 - y).
Qed.

Lemma r90_copies_of :
  exists l, r90 bits dst ds src ss width height st = run_copies (elt bits) l st /\
    copies_of TRANSFORM_R90 (elt bits) dst ds src ss width height l.
Proof.
  unfold r90.
  destruct (transpose_copies bits elt_pos dst ds (src + (height - 1) * ss)
              (ss * -1) width height ds_mult (divide_opp _ _ ss_mult) st)
    as (l & Hrun & Hin).
  exists l. split; [exact Hrun|].
  reindex Hin (fun x : Z => x) (fun y : Z => height - 1 - y).
Qed.

Lemma r270_copies_of :
  exists l, r270 bits dst ds src ss width height st = run_copies (elt bits) l st /\
    copies_of TRANSFORM_R270 (elt bits) dst ds src ss width height l.
Proof.
  unfold r270.
  destruct (transpose_copies bits elt_pos (dst + (width - 1) * ds) (ds * -1)
              src ss width height (divide_opp _ _ ds_mult) ss_mult st)
    as (l & Hrun & Hin).
  exists l. split; [exact Hrun|].
  reindex Hin (fun x : Z => x) (fun y : Z => y).
Qed.

Lemma antitranspose_copies_of :
  exists l, antitranspose bits dst ds src ss width height st =
            run_copies (elt bits) l st /\
    copies_of TRANSFORM_ANTI_TRANSPOSE (elt bits) dst ds src ss width height l.
Proof.
  unfold antitranspose, r270.
  destruct (transpose_copies bits elt_pos (dst + (width - 1) * ds) (ds * -1)
              (src + (height - 1) * ss) (ss * -1) width height
              (divide_opp _ _ ds_mult) (divide_opp _ _ ss_mult) st)
    as (l & Hrun & Hin).
  exists l. split; [exact Hrun|].
  reindex Hin (fun x : Z => x) (fun y : Z => height - 1 - y).
Qed.

End Entries.

(** [vflip] copies bytes: it is a sequence of one-byte copies over rows of
    [width << order] bytes. *)
Lemma vflip_copies_of (dst : addr) (ds : Z) (src : addr) (ss : Z)
    (width height order : Z) (st : state) :
  exists l, vflip dst ds src ss width height order st = run_copies 1 l st /\
    copies_of TRANSFORM_VFLIP 1 dst ds src ss (Z.shiftl width order) height l.
Proof.
  set (n := Z.shiftl width order).
  set (row := fun s d : addr =>
         map (fun i => (s + i, d - ds + i)) (zrange 0 (Z.to_nat n))).
  exists (loop_copies (Z.to_nat height) src (dst + ds * height) ss (- ds) row).
  split.
  - unfold vflip. fold n.
    apply (row_loop 1 ss (- ds) row).
    intros i c. unfold memcpy.
    rewrite (elements_loop 1 (fun i => c_src c + i) (fun i => c_dst c - ds + i)).
    fold (row (c_src c) (c_dst c)). reflexivity.
  - intros s d. rewrite in_loop_copies. unfold row, forward, at_xy. cbn [fst snd].
    split.
    + intros (y & Hy & H). apply in_map_iff in H. destruct H as (x & Hx & H).
      apply in_zrange0 in H. injection Hx as <- <-.
      exists x, y. repeat split; lia.
    + intros (x & y & Hx & Hy & -> & ->). exists y. split; [lia|].
      apply in_map_iff. exists x. split; [f_equal; lia|].
      apply in_zrange0. lia.
Qed.

(** ** Consequences of the characterisation *)

Lemma forward_in_range (t : video_transform_t) (width height x y : Z) :
  0 <= x < width -> 0 <= y < height ->
  0 <= fst (forward t width height x y) < dst_width t width height /\
  0 <= snd (forward t width height x y) < dst_height t width height.
Proof. intros Hx Hy. destruct t; cbn; lia. Qed.

Lemma forward_inj (t : video_transform_t) (width height x y x' y' : Z) :
  forward t width height x y = forward t width height x' y' ->
  x = x' /\ y = y'.
Proof. destruct t; cbn; intros H; injection H; lia. Qed.

Lemma element_in_plane (base stride w width height x y k : Z) :
  0 <= x < width -> 0 <= y < height -> 0 <= k < w ->
  in_plane base stride w width height (at_xy base stride w x y + k).
Proof.
  intros Hx Hy Hk. exists y. split; [exact Hy|]. unfold at_xy.
  assert (0 <= x * w) by nia.
  assert ((x + 1) * w <= width * w) by nia.
  lia.
Qed.

Lemma slots_apart (w ds dw fx fy fx' fy' : Z) :
  0 < w -> dw * w <= ds -> 0 <= fx < dw -> 0 <= fx' < dw ->
  (fy = fy' /\ fx = fx') \/
  fy * ds + fx * w + w <= fy' * ds + fx' * w \/
  fy' * ds + fx' * w + w <= fy * ds + fx * w.
Proof.
  intros Hw Hds Hx Hx'.
  assert ((fx + 1) * w <= dw * w) by nia.
  assert ((fx' + 1) * w <= dw * w) by nia.
  assert (0 <= fx * w) by nia.
  assert (0 <= fx' * w) by nia.
  destruct (Z.lt_trichotomy fy fy') as [Hlt|[Heq|Hgt]].
  - right. left. assert (0 <= (fy' - fy - 1) * ds) by nia. lia.
  - subst fy'. destruct (Z.lt_trichotomy fx fx') as [Hlt|[Heq|Hgt]].
    + right. left. assert ((fx + 1) * w <= fx' * w) by nia. lia.
    + left. split; [reflexivity|exact Heq].
    + right. right. assert ((fx' + 1) * w <= fx * w) by nia. lia.
  - right. right. assert (0 <= (fy - fy' - 1) * ds) by nia. lia.
Qed.

Section Consequences.

Variable t : video_transform_t.
Variables (w : Z) (dst : addr) (ds : Z) (src : addr) (ss : Z) (width height : Z).
Variable l : list (addr * addr).
Hypothesis w_pos : 0 < w.
Hypothesis l_copies : copies_of t w dst ds src ss width height l.

Let dw := dst_width t width height.
Let dh := dst_height t width height.

Lemma copies_empty : width <= 0 \/ height <= 0 -> l = [].
Proof.
  intros H. destruct l as [|[s d] l0]; [reflexivity|].
  destruct (proj1 (l_copies s d) (or_introl eq_refl)) as (x & y & Hx & Hy & _).
  lia.
Qed.

Lemma copies_log_ok :
  Forall (access_ok t w dst ds src ss width height) (copies_log w l).
Proof.
  apply Forall_forall. intros e He. unfold copies_log in He.
  apply in_flat_map in He. destruct He as ([s d] & Hsd & He). cbn [fst snd] in He.
  apply l_copies in Hsd. destruct Hsd as (x & y & Hx & Hy & -> & ->).
  destruct (forward_in_range t width height x y Hx Hy) as [Hfx Hfy].
  apply in_app_iff in He. destruct He as [He|He];
    apply in_map_iff in He; destruct He as (a & <- & Ha);
    apply in_span in Ha; cbn [access_ok].
  - replace a with (at_xy src ss w x y + (a - at_xy src ss w x y)) by lia.
    apply element_in_plane; lia.
  - set (a2 := at_xy dst ds w _ _) in *.
    replace a with (a2 + (a - a2)) by lia.
    apply element_in_plane; fold dw dh; lia.
Qed.

Lemma copies_frame (st : state) (q : addr) :
  ~ in_plane dst ds w dw dh q ->
  st_mem (run_copies w l st) q = st_mem st q.
Proof.
  intros Hq. apply run_copies_frame. intros s d Hsd.
  apply l_copies in Hsd. destruct Hsd as (x & y & Hx & Hy & -> & ->).
  destruct (forward_in_range t width height x y Hx Hy) as [Hfx Hfy].
  set (a2 := at_xy dst ds w _ _).
  destruct (Z_lt_dec q a2) as [|Hge]; [left; assumption|].
  destruct (Z_le_dec (a2 + w) q) as [|Hlt]; [right; assumption|].
  exfalso. apply Hq.
  replace q with (a2 + (q - a2)) by lia.
  apply element_in_plane; fold dw dh; lia.
Qed.

Hypothesis apart : planes_apart t w dst ds src ss width height.
Hypothesis ds_wide : dw * w <= ds.

Lemma copies_moved (st : state) (x y k : Z) :
  0 <= x < width -> 0 <= y < height -> 0 <= k < w ->
  st_mem (run_copies w l st)
         (at_xy dst ds w (fst (forward t width height x y))
                         (snd (forward t width height x y)) + k) =
  st_mem st (at_xy src ss w x y + k).
Proof.
  intros Hx Hy Hk. apply run_copies_copied; try assumption.
  - intros s d s' d' H H'.
    apply l_copies in H. destruct H as (x1 & y1 & Hx1 & Hy1 & -> & _).
    apply l_copies in H'. destruct H' as (x2 & y2 & Hx2 & Hy2 & _ & ->).
    destruct (forward_in_range t width height x2 y2 Hx2 Hy2) as [Hfx Hfy].
    set (a1 := at_xy src ss w x1 y1). set (a2 := at_xy dst ds w _ _).
    destruct (Z_le_dec (a1 + w) a2) as [|H1]; [left; assumption|].
    destruct (Z_le_dec (a2 + w) a1) as [|H2]; [right; assumption|].
    exfalso. apply (apart (Z.max a1 a2)).
    + replace (Z.max a1 a2) with (a1 + (Z.max a1 a2 - a1)) by lia.
      apply element_in_plane; lia.
    + replace (Z.max a1 a2) with (a2 + (Z.max a1 a2 - a2)) by lia.
      apply element_in_plane; fold dw dh; lia.
  - intros s d s' d' H H'.
    apply l_copies in H. destruct H as (x1 & y1 & Hx1 & Hy1 & -> & ->).
    apply l_copies in H'. destruct H' as (x2 & y2 & Hx2 & Hy2 & -> & ->).
    destruct (forward_in_range t width height x1 y1 Hx1 Hy1) as [Hf1 _].
    destruct (forward_in_range t width height x2 y2 Hx2 Hy2) as [Hf2 _].
    fold dw in Hf1, Hf2.
    destruct (slots_apart w ds dw _ (snd (forward t width height x1 y1))
                _ (snd (forward t width height x2 y2)) w_pos ds_wide Hf1 Hf2)
      as [[Hy12 Hx12]|[H|H]].
    + left.
      destruct (forward_inj t width height x1 y1 x2 y2) as [-> ->].
      { rewrite (surjective_pairing (forward t width height x1 y1)).
        rewrite (surjective_pairing (forward t width height x2 y2)).
        congruence. }
      split; reflexivity.
    + right. left. unfold at_xy. lia.
    + right. right. unfold at_xy. lia.
  - apply l_copies. exists x, y. repeat split; lia.
Qed.

End Consequences.

(** ** Every entry of the catalog *)

Lemma entry_bits (t : video_transform_t) (bits : Z) (fn : plane_fn) :
  In (bits, Some fn) (entries t) -> bits = 8 \/ bits = 16 \/ bits = 32.
Proof.
  unfold entries. intros [H|[H|[H|[]]]]; injection H; intros; lia.
Qed.

Lemma entry_elt (t : video_transform_t) (bits : Z) (fn : plane_fn) :
  In (bits, Some fn) (entries t) -> elt bits = 1 \/ elt bits = 2 \/ elt bits = 4.
Proof.
  intros H. destruct (entry_bits t bits fn H) as [-> | [-> | ->]]; cbv; auto.
Qed.

Lemma shiftl_ctz (bits width : Z) :
  bits = 8 \/ bits = 16 \/ bits = 32 ->
  Z.shiftl width (ctz (elt bits)) = width * elt bits.
Proof.
  intros [-> | [-> | ->]]; rewrite Z.shiftl_mul_pow2 by (cbv; discriminate);
    reflexivity.
Qed.

Ltac by_elements lem Hds Hss :=
  match goal with
  | |- context [run_copies _ _ ?st] =>
      match type of Hds with
      | (elt ?b | ?ds) =>
          match goal with
          | |- exists _ _ _, _ /\ _ ?dst ds ?src ?ss ?width ?height st = _ /\ _ =>
              destruct (lem b eq_refl dst ds src ss width height Hds Hss st)
                as (l & Hrun & Hl);
              exists (elt b), width, l;
              split; [left; split; reflexivity|split; assumption]
          end
      end
  end.

Lemma entry_run (t : video_transform_t) (bits : Z) (fn : plane_fn)
    (dst : addr) (ds : Z) (src : addr) (ss : Z) (width height : Z) (st : state) :
  In (bits, Some fn) (entries t) ->
  (elt bits | ds) -> (elt bits | ss) ->
  exists w' width' l,
    granularity t bits width w' width' /\
    fn dst ds src ss width height st = run_copies w' l st /\
    copies_of t w' dst ds src ss width' height l.
Proof.
  intros Hin Hds Hss.
  destruct t; cbn in Hin; destruct Hin as [H|[H|[H|[]]]];
    try discriminate H; injection H as Hb Hf; subst bits fn;
    first [ by_elements hflip_copies_of Hds Hss
          | by_elements r180_copies_of Hds Hss
          | by_elements r270_copies_of Hds Hss
          | by_elements r90_copies_of Hds Hss
          | by_elements transpose_copies_of Hds Hss
          | by_elements antitranspose_copies_of Hds Hss
          | idtac ].
  all: unfold vflip_bits;
    match goal with
    | |- context [vflip _ _ _ _ _ _ (ctz (elt ?b)) _] =>
        destruct (vflip_copies_of dst ds src ss width height (ctz (elt b)) st)
          as (l & Hrun & Hl);
        rewrite (shiftl_ctz b width) in Hl by (cbv; auto);
        exists 1, (width * elt b), l;
        split; [right; repeat split; reflexivity|split; assumption]
    end.
Qed.

Lemma granularity_planes (t : video_transform_t) (bits width height w' width' : Z)
    (base : addr) (stride : Z) (a : addr) :
  granularity t bits width w' width' ->
  (in_plane base stride w' width' height a <->
   in_plane base stride (elt bits) width height a) /\
  (in_plane base stride w' (dst_width t width' height) (dst_height t width' height) a <->
   in_plane base stride (elt bits) (dst_width t width height)
            (dst_height t width height) a).
Proof.
  intros [[-> ->] | (-> & -> & ->)]; [split; reflexivity|].
  cbn [dst_width dst_height ORIENT_IS_SWAP]. unfold in_plane.
  rewrite Z.mul_1_r. split; reflexivity.
Qed.

Lemma granularity_pos (t : video_transform_t) (bits width w' width' : Z) (fn : plane_fn) :
  In (bits, Some fn) (entries t) -> granularity t bits width w' width' -> 0 < w'.
Proof.
  intros Hin Hg. pose proof (entry_elt t bits fn Hin).
  destruct Hg as [[-> _] | (_ & -> & _)]; lia.
Qed.

Section Entry.

Variables (t : video_transform_t) (bits : Z) (fn : plane_fn).
Variables (dst : addr) (ds : Z) (src : addr) (ss : Z) (width height : Z).
Hypothesis entry : In (bits, Some fn) (entries t).
Hypothesis ds_mult : (elt bits | ds).
Hypothesis ss_mult : (elt bits | ss).

Let w := elt bits.
Let dw := dst_width t width height.
Let dh := dst_height t width height.

(** The accesses of an entry stay inside the two visible rectangles. *)
Lemma entry_log (st : state) :
  exists new,
    st_log (fn dst ds src ss width height st) = st_log st ++ new /\
    Forall (access_ok t w dst ds src ss width height) new.
Proof.
  destruct (entry_run t bits fn dst ds src ss width height st entry ds_mult ss_mult)
    as (w' & width' & l & Hg & Hrun & Hl).
  pose proof (granularity_pos _ _ _ _ _ _ entry Hg) as Hpos.
  exists (copies_log w' l). rewrite Hrun, run_copies_log. split; [reflexivity|].
  eapply Forall_impl; [|exact (copies_log_ok t w' dst ds src ss width' height l Hpos Hl)].
  intros [a|a]; cbn [access_ok]; intros Ha.
  - apply (granularity_planes t bits width height w' width' src ss a Hg). exact Ha.
  - apply (granularity_planes t bits width height w' width' dst ds a Hg). exact Ha.
Qed.

(** Bytes outside the visible rectangle of the destination keep their
    value. *)
Lemma entry_frame (st : state) (q : addr) :
  ~ in_plane dst ds w dw dh q ->
  st_mem (fn dst ds src ss width height st) q = st_mem st q.
Proof.
  intros Hq.
  destruct (entry_run t bits fn dst ds src ss width height st entry ds_mult ss_mult)
    as (w' & width' & l & Hg & Hrun & Hl).
  pose proof (granularity_pos _ _ _ _ _ _ entry Hg) as Hpos.
  rewrite Hrun. apply (copies_frame t w' dst ds src ss width' height l Hl).
  intros Hin. apply Hq.
  apply (granularity_planes t bits width height w' width' dst ds q Hg). exact Hin.
Qed.

(** An empty plane is left alone: nothing is read and nothing is written. *)
Lemma entry_noop (st : state) :
  width <= 0 \/ height <= 0 ->
  fn dst ds src ss width height st = st.
Proof.
  intros Hz.
  destruct (entry_run t bits fn dst ds src ss width height st entry ds_mult ss_mult)
    as (w' & width' & l & Hg & Hrun & Hl).
  pose proof (granularity_pos _ _ _ _ _ _ entry Hg) as Hpos.
  rewrite Hrun.
  rewrite (copies_empty t w' dst ds src ss width' height l Hl); [reflexivity|].
  pose proof (entry_elt t bits fn entry).
  destruct Hg as [[_ ->] | (_ & _ & ->)]; [exact Hz|].
  destruct Hz as [Hz|Hz]; [left; nia|right; exact Hz].
Qed.

Hypothesis apart : planes_apart t w dst ds src ss width height.
Hypothesis ds_wide : dw * w <= ds.

(** The element read at column [x] of row [y] is found at its [forward]
    place of the destination. *)
Lemma entry_moves_bytes (st : state) (x y k : Z) :
  0 <= x < width -> 0 <= y < height -> 0 <= k < w ->
  st_mem (fn dst ds src ss width height st)
         (at_xy dst ds w (fst (forward t width height x y))
                         (snd (forward t width height x y)) + k) =
  st_mem st (at_xy src ss w x y + k).
Proof.
  intros Hx Hy Hk.
  destruct (entry_run t bits fn dst ds src ss width height st entry ds_mult ss_mult)
    as (w' & width' & l & Hg & Hrun & Hl).
  pose proof (granularity_pos _ _ _ _ _ _ entry Hg) as Hpos.
  assert (Hapart : planes_apart t w' dst ds src ss width' height).
  { intros a Hs Hd. apply (apart a).
    - apply (granularity_planes t bits width height w' width' src ss a Hg). exact Hs.
    - apply (granularity_planes t bits width height w' width' dst ds a Hg). exact Hd. }
  rewrite Hrun. destruct Hg as [[-> ->] | (-> & -> & ->)].
  - apply (copies_moved t (elt bits) dst ds src ss width height l Hpos Hl
             apart ds_wide st x y k Hx Hy Hk).
  - fold w in Hl, Hapart |- *.
    assert (Hwide : dst_width TRANSFORM_VFLIP (width * w) height * 1 <= ds)
      by (cbn in ds_wide |- *; subst dw; cbn in ds_wide; lia).
    assert (Hxk : 0 <= x * w + k < width * w) by nia.
    assert (H0 : 0 <= 0 < 1) by lia.
    pose proof (copies_moved TRANSFORM_VFLIP 1 dst ds src ss (width * w) height l
                  Hpos Hl Hapart Hwide st (x * w + k) y 0 Hxk Hy H0) as Hm.
    unfold forward, at_xy in Hm |- *. cbn [fst snd] in Hm |- *.
    replace (dst + (height - 1 - y) * ds + x * w + k)
      with (dst + (height - 1 - y) * ds + (x * w + k) * 1 + 0) by lia.
    rewrite Hm. f_equal. lia.
Qed.

Lemma entry_moves (st : state) (x y : Z) :
  0 <= x < width -> 0 <= y < height ->
  load_mem w (st_mem (fn dst ds src ss width height st))
           (at_xy dst ds w (fst (forward t width height x y))
                           (snd (forward t width height x y))) =
  load_mem w (st_mem st) (at_xy src ss w x y).
Proof.
  intros Hx Hy. apply load_mem_ext. intros k Hk.
  apply entry_moves_bytes; assumption.
Qed.

End Entry.

End PlaneFacts.

(* ================================================================== *)
(** * The plane transforms: index formulas and footprint *)
(* ================================================================== *)

Module PlaneClaims.
Import Mem Planes Orient Layout MemFacts PlaneFacts.

Lemma entry_of (t : video_transform_t) (g : Z -> plane_fn) (bits : Z) :
  descriptions t = DESC g -> width_ok bits ->
  In (bits, Some (g bits)) (entries t).
Proof.
  intros Hd [-> | [-> | ->]]; unfold entries; rewrite Hd; cbn; auto.
Qed.

(** Discharges side conditions on concrete planes. *)
Ltac concrete :=
  unfold planes_apart, in_plane, dst_width, dst_height, width_ok;
  cbn [ORIENT_IS_SWAP];
  try change (elt 8) with 1; try change (elt 16) with 2;
  try change (elt 32) with 4;
  first [ lia
        | match goal with |- (_ | _) => apply Z.mod_divide; [lia|reflexivity] end
        | intros ? (? & ? & ?) (? & ? & ?); lia ].

(** C2. For element widths of 1, 2 and 4 bytes, non-negative width and
    height, and pitches that are multiples of the element size and at least
    one visible row long, [hflip] leaves in element [x] of destination row
    [row] the element [width-1-x] of source row [row]; the row [1,2,3,4] of
    one-byte elements comes out as [4,3,2,1]. *)
Theorem hflip_reverses_rows :
  (forall bits dst ds src ss width height st row x,
     width_ok bits ->
     0 <= width -> 0 <= height ->
     (elt bits | ss) -> (elt bits | ds) ->
     width * elt bits <= ss -> width * elt bits <= ds ->
     planes_apart TRANSFORM_HFLIP (elt bits) dst ds src ss width height ->
     0 <= row < height -> 0 <= x < width ->
     load_mem (elt bits)
              (st_mem (hflip bits dst ds src ss width height st))
              (at_xy dst ds (elt bits) x row) =
     load_mem (elt bits) (st_mem st)
              (at_xy src ss (elt bits) (width - 1 - x) row)) /\
  peek_rows (st_mem (hflip 8 200 4 100 4 4 1 (plane_at 100 4 1 [[1; 2; 3; 4]])))
            200 4 1 4 1 = [[4; 3; 2; 1]].
Proof.
  split; [|vm_compute; reflexivity].
  intros bits dst ds src ss width height st row x Hb Hw Hh Hss Hds Hsw Hdw Hap Hr Hx.
  pose proof (entry_moves TRANSFORM_HFLIP bits (hflip bits) dst ds src ss width height
                (entry_of TRANSFORM_HFLIP hflip bits eq_refl Hb) Hds Hss Hap Hdw st
                (width - 1 - x) row) as Hm.
  cbn [forward fst snd] in Hm.
  replace (width - 1 - (width - 1 - x)) with x in Hm by lia.
  apply Hm; lia.
Qed.

Lemma hflip_reverses_rows_witness :
  load_mem 1 (st_mem (hflip 8 200 4 100 4 4 1 (plane_at 100 4 1 [[1; 2; 3; 4]])))
           (at_xy 200 4 1 0 0) =
  load_mem 1 (st_mem (plane_at 100 4 1 [[1; 2; 3; 4]])) (at_xy 100 4 1 (4 - 1 - 0) 0).
Proof.
  apply (proj1 hflip_reverses_rows 8 200 4 100 4 4 1
           (plane_at 100 4 1 [[1; 2; 3; 4]]) 0 0).
  all: concrete.
Defined.




Lemma entry_moves_to (t : video_transform_t) (g : Z -> plane_fn) (bits : Z)
    (dst : addr) (ds : Z) (src : addr) (ss : Z) (width height : Z) (st : state)
    (x y dx dy : Z) :
  descriptions t = DESC g ->
  call_ok t bits dst ds src ss width height ->
  0 <= x < width -> 0 <= y < height ->
  forward t width height x y = (dx, dy) ->
  load_mem (elt bits) (st_mem (g bits dst ds src ss width height st))
           (at_xy dst ds (elt bits) dx dy) =
  load_mem (elt bits) (st_mem st) (at_xy src ss (elt bits) x y).
Proof.
  intros Hd (Hb & Hw & Hh & Hss & Hds & Hsw & Hdw & Hap) Hx Hy Hf.
  pose proof (entry_moves t bits (g bits) dst ds src ss width height
                (entry_of t g bits Hd Hb) Hds Hss Hap Hdw st x y Hx Hy) as Hm.
  rewrite Hf in Hm. exact Hm.
Qed.

(** C1. For element widths of 1, 2 and 4 bytes, non-negative width and
    height, and pitches that are multiples of the element size and at least
    one visible row of their plane, the transforms composed with negated
    pitches obey their index formulas at every in-bounds (x, y):
    r180 has dst[y][x] = src[height-1-y][width-1-x],
    r90 has dst[x][y] = src[height-1-y][x],
    r270 has dst[x][y] = src[y][width-1-x], and
    antitranspose has dst[x][y] = src[height-1-y][width-1-x]. *)
Theorem derived_index_formulas
    (bits : Z) (dst : addr) (ds : Z) (src : addr) (ss : Z) (width height : Z)
    (st : state) (x y : Z) :
  0 <= x < width -> 0 <= y < height ->
  let w := elt bits in
  let src_at := fun row col => load_mem w (st_mem st) (at_xy src ss w col row) in
  let dst_at := fun (g : Z -> plane_fn) row col =>
    load_mem w (st_mem (g bits dst ds src ss width height st))
             (at_xy dst ds w col row) in
  (call_ok TRANSFORM_R180 bits dst ds src ss width height ->
   dst_at r180 y x = src_at (height - 1 - y) (width - 1 - x)) /\
  (call_ok TRANSFORM_R90 bits dst ds src ss width height ->
   dst_at r90 x y = src_at (height - 1 - y) x) /\
  (call_ok TRANSFORM_R270 bits dst ds src ss width height ->
   dst_at r270 x y = src_at y (width - 1 - x)) /\
  (call_ok TRANSFORM_ANTI_TRANSPOSE bits dst ds src ss width height ->
   dst_at antitranspose x y = src_at (height - 1 - y) (width - 1 - x)).
Proof.
  intros Hx Hy w src_at dst_at. subst w src_at dst_at. cbv beta.
  repeat split; intros Hok.
  - apply (entry_moves_to TRANSFORM_R180 r180); try assumption; try reflexivity;
      try lia. cbn. f_equal; lia.
  - apply (entry_moves_to TRANSFORM_R90 r90); try assumption; try reflexivity;
      try lia. cbn. f_equal; lia.
  - apply (entry_moves_to TRANSFORM_R270 r270); try assumption; try reflexivity;
      try lia. cbn. f_equal; lia.
  - apply (entry_moves_to TRANSFORM_ANTI_TRANSPOSE antitranspose);
      try assumption; try reflexivity; try lia. cbn. f_equal; lia.
Qed.

Lemma derived_index_formulas_witness :
  let st := plane_at 100 8 2 [[1; 2; 3]; [4; 5; 600]] in
  load_mem 2 (st_mem (r180 16 200 8 100 8 3 2 st)) (at_xy 200 8 2 0 1) =
  load_mem 2 (st_mem st) (at_xy 100 8 2 2 0) /\
  load_mem 2 (st_mem (r90 16 200 8 100 8 3 2 st)) (at_xy 200 8 2 1 0) =
  load_mem 2 (st_mem st) (at_xy 100 8 2 0 0) /\
  load_mem 2 (st_mem (r270 16 200 8 100 8 3 2 st)) (at_xy 200 8 2 1 0) =
  load_mem 2 (st_mem st) (at_xy 100 8 2 2 1) /\
  load_mem 2 (st_mem (antitranspose 16 200 8 100 8 3 2 st)) (at_xy 200 8 2 1 0) =
  load_mem 2 (st_mem st) (at_xy 100 8 2 2 0).
Proof.
  intros st.
  destruct (derived_index_formulas 16 200 8 100 8 3 2 st 0 1)
    as (H180 & H90 & H270 & Hanti); [lia|lia|].
  split; [apply H180|split; [apply H90|split; [apply H270|apply Hanti]]];
    unfold call_ok;
    (split; [|split; [|split; [|split; [|split; [|split; [|split]]]]]]);
    concrete.
Defined.

(** C6. Every entry of the catalog (seven kinds, three element widths), on
    planes whose pitches are multiples of the element size: with a width or a
    height of zero the call reads and writes nothing; for any non-negative
    width and height every byte read lies in the visible rectangle of the
    source and every byte written in the visible rectangle of the
    destination, whatever the padding between rows; and every byte outside the
    visible rectangle of the destination keeps its value. *)
Theorem footprint_within_visible
    (t : video_transform_t) (bits : Z) (fn : plane_fn)
    (dst : addr) (ds : Z) (src : addr) (ss : Z) (width height : Z) (st : state) :
  In (bits, Some fn) (entries t) ->
  0 <= width -> 0 <= height ->
  (elt bits | ds) -> (elt bits | ss) ->
  let st' := fn dst ds src ss width height st in
  (width = 0 \/ height = 0 -> st' = st) /\
  (exists accesses,
     st_log st' = st_log st ++ accesses /\
     Forall (access_ok t (elt bits) dst ds src ss width height) accesses) /\
  (forall q,
     ~ in_plane dst ds (elt bits) (dst_width t width height)
                (dst_height t width height) q ->
     st_mem st' q = st_mem st q).
Proof.
  intros Hin Hw Hh Hds Hss st'. subst st'. repeat split.
  - intros Hz. apply (entry_noop t bits fn dst ds src ss width height Hin Hds Hss).
    lia.
  - apply (entry_log t bits fn dst ds src ss width height Hin Hds Hss).
  - intros q Hq.
    apply (entry_frame t bits fn dst ds src ss width height Hin Hds Hss). exact Hq.
Qed.

Lemma footprint_within_visible_witness :
  let st := plane_at 100 8 2 [[1; 2; 3]; [4; 5; 600]] in
  let st' := r90 16 200 8 100 8 3 2 st in
  (3 = 0 \/ 2 = 0 -> st' = st) /\
  (exists accesses,
     st_log st' = st_log st ++ accesses /\
     Forall (access_ok TRANSFORM_R90 2 200 8 100 8 3 2) accesses) /\
  (forall q, ~ in_plane 200 8 2 2 3 q -> st_mem st' q = st_mem st q).
Proof.
  intros st st'.
  apply (footprint_within_visible TRANSFORM_R90 16 (r90 16) 200 8 100 8 3 2 st).
  - right. left. reflexivity.
  - lia.
  - lia.
  - concrete.
  - concrete.
Defined.

End PlaneClaims.

(* ================================================================== *)
(** * The pointer mapping *)
(* ================================================================== *)

Module MouseClaims.
Import Mem Planes Orient Layout MemFacts PlaneFacts.

Section Mouse_.

Variable video_orientation_t : Type.
Variable mouse_other : Type.

Implicit Types (filter : filter_t video_orientation_t).
Implicit Types (mouse mold : vlc_mouse_t mouse_other).

Lemma Mouse_eq filter sys mouse mold (sx sy : Z) :
  p_sys filter = Some sys ->
  Mouse_sx (transform sys) (i_visible_width (fmt_out filter))
           (i_visible_height (fmt_out filter)) (i_x mouse) (i_y mouse) = Some sx ->
  Mouse_sy (transform sys) (i_visible_width (fmt_out filter))
           (i_visible_height (fmt_out filter)) (i_x mouse) (i_y mouse) = Some sy ->
  Mouse filter mouse mold = Some (VLC_SUCCESS, mkMouse sx sy (m_other mouse)).
Proof. intros Hs Hx Hy. unfold Mouse. rewrite Hs, Hx, Hy. reflexivity. Qed.

(** C4. For each of the seven transforms other than the identity and every
    destination point (dx, dy), [Mouse] stores the (sx, sy) of the spec's
    table, computed from the visible size (dw, dh) of the output format; for
    HFLIP on a 100 x 50 output the point (10, 5) maps to (89, 5). *)
Theorem Mouse_follows_table :
  (forall filter sys mouse mold sx sy,
     p_sys filter = Some sys ->
     In (transform sys, (sx, sy))
        (mapping_table (i_visible_width (fmt_out filter))
                       (i_visible_height (fmt_out filter))
                       (i_x mouse) (i_y mouse)) ->
     Mouse filter mouse mold = Some (VLC_SUCCESS, mkMouse sx sy (m_other mouse))) /\
  (forall t dw dh dx dy,
     t <> TRANSFORM_IDENTITY ->
     exists sx sy, In (t, (sx, sy)) (mapping_table dw dh dx dy)) /\
  (forall filter sys mouse mold,
     p_sys filter = Some sys ->
     transform sys = TRANSFORM_HFLIP ->
     i_visible_width (fmt_out filter) = 100 ->
     i_visible_height (fmt_out filter) = 50 ->
     i_x mouse = 10 -> i_y mouse = 5 ->
     Mouse filter mouse mold = Some (VLC_SUCCESS, mkMouse 89 5 (m_other mouse))).
Proof.
  split; [|split].
  - intros filter sys mouse mold sx sy Hs Hin.
    unfold mapping_table in Hin.
    repeat (destruct Hin as [Hin|Hin];
            [injection Hin as Ht <- <-;
             apply (Mouse_eq filter sys mouse mold _ _ Hs);
             rewrite <- Ht; reflexivity|]).
    destruct Hin.
  - intros t dw dh dx dy Ht. unfold mapping_table.
    destruct t; [contradiction| | | | | | | ]; do 2 eexists; cbn;
      repeat (first [left; reflexivity|right]).
  - intros filter sys mouse mold Hs Ht Hw Hh Hx Hy.
    apply (Mouse_eq filter sys mouse mold _ _ Hs);
      rewrite Ht, Hw, Hx, Hy; reflexivity.
Qed.

(** C10. For a configured transform other than the identity, [Mouse] returns
    success, changes nothing in the mouse state but [i_x] and [i_y], and the
    two values it stores are fixed by the transform, the visible size of the
    output format and the incoming [i_x] and [i_y]: any other call that agrees
    on these stores the same two values, whatever its previous mouse state. *)
Theorem Mouse_touches_only_xy filter sys mouse mold :
  p_sys filter = Some sys ->
  transform sys <> TRANSFORM_IDENTITY ->
  exists sx sy,
    Mouse filter mouse mold = Some (VLC_SUCCESS, mkMouse sx sy (m_other mouse)) /\
    forall filter' sys' mouse' mold',
      p_sys filter' = Some sys' ->
      transform sys' = transform sys ->
      i_visible_width (fmt_out filter') = i_visible_width (fmt_out filter) ->
      i_visible_height (fmt_out filter') = i_visible_height (fmt_out filter) ->
      i_x mouse' = i_x mouse -> i_y mouse' = i_y mouse ->
      Mouse filter' mouse' mold' =
      Some (VLC_SUCCESS, mkMouse sx sy (m_other mouse')).
Proof.
  intros Hs Ht.
  assert (Hxy : exists sx sy,
            Mouse_sx (transform sys) (i_visible_width (fmt_out filter))
              (i_visible_height (fmt_out filter)) (i_x mouse) (i_y mouse) = Some sx /\
            Mouse_sy (transform sys) (i_visible_width (fmt_out filter))
              (i_visible_height (fmt_out filter)) (i_x mouse) (i_y mouse) = Some sy).
  { destruct (transform sys); [contradiction| | | | | | | ];
      do 2 eexists; split; reflexivity. }
  destruct Hxy as (sx & sy & Hx & Hy). exists sx, sy. split.
  - exact (Mouse_eq filter sys mouse mold sx sy Hs Hx Hy).
  - intros filter' sys' mouse' mold' Hs' Ht' Hw' Hh' Hx' Hy'.
    apply (Mouse_eq filter' sys' mouse' mold' sx sy Hs');
      rewrite Ht', Hw', Hh', Hx', Hy'; assumption.
Qed.

(** C5. For every transform other than the identity and every source
    coordinate (sx, sy) inside the source plane: the plane function puts the
    source element at the destination position [forward], and [Mouse], given
    that position and the size of the destination, returns (sx, sy). *)
Theorem Mouse_inverts_forward
    (t : video_transform_t) (bits : Z) (fn : plane_fn)
    (dst : addr) (ds : Z) (src : addr) (ss : Z) (width height : Z) (st : state)
    (sx sy : Z) filter sys mouse mold :
  In (bits, Some fn) (entries t) ->
  call_ok t bits dst ds src ss width height ->
  0 <= sx < width -> 0 <= sy < height ->
  p_sys filter = Some sys ->
  transform sys = t ->
  i_visible_width (fmt_out filter) = dst_width t width height ->
  i_visible_height (fmt_out filter) = dst_height t width height ->
  i_x mouse = fst (forward t width height sx sy) ->
  i_y mouse = snd (forward t width height sx sy) ->
  load_mem (elt bits) (st_mem (fn dst ds src ss width height st))
           (at_xy dst ds (elt bits) (i_x mouse) (i_y mouse)) =
  load_mem (elt bits) (st_mem st) (at_xy src ss (elt bits) sx sy) /\
  Mouse filter mouse mold = Some (VLC_SUCCESS, mkMouse sx sy (m_other mouse)).
Proof.
  intros Hin (Hb & Hw & Hh & Hss & Hds & Hsw & Hdw & Hap) Hx Hy Hs Ht Hvw Hvh Hmx Hmy.
  split.
  - rewrite Hmx, Hmy.
    apply (entry_moves t bits fn dst ds src ss width height Hin Hds Hss Hap Hdw
             st sx sy Hx Hy).
  - apply (Mouse_eq filter sys mouse mold sx sy Hs);
      rewrite Ht, Hvw, Hvh, Hmx, Hmy;
      destruct t; cbn in Hin |- *;
      try (destruct Hin as [Hin|[Hin|[Hin|[]]]]; discriminate Hin);
      f_equal; lia.
Qed.

End Mouse_.

End MouseClaims.

(* ================================================================== *)
(** * Setup and the per-frame filter *)
(* ================================================================== *)

Module OpenClaims.
Import Mem Planes Orient Layout MemFacts PlaneFacts.

Lemma first_plane_some (sys : filter_sys_t) (dsc : transform_description_t) (ps : Z) :
  ps = 1 \/ ps = 2 \/ ps = 4 ->
  first_plane sys dsc ps = Some (set_plane sys 0 (plane_for dsc ps)).
Proof. intros [-> | [-> | ->]]; reflexivity. Qed.

Lemma first_plane_none (sys : filter_sys_t) (dsc : transform_description_t) (ps : Z) :
  ~ (ps = 1 \/ ps = 2 \/ ps = 4) -> first_plane sys dsc ps = None.
Proof.
  intros H. destruct ps as [|q|q]; try reflexivity.
  destruct q as [q|q|]; try reflexivity; [|exfalso; apply H; auto].
  destruct q as [q|q|]; try reflexivity; [|exfalso; apply H; auto].
  destruct q as [q|q|]; try reflexivity. exfalso; apply H; auto.
Qed.

Lemma umul_small (a b : Z) :
  0 <= a < 2 ^ 16 -> 0 <= b < 2 ^ 16 -> umul a b = a * b.
Proof.
  intros Ha Hb. unfold umul. apply Z.mod_small.
  change (2 ^ 32) with (2 ^ 16 * 2 ^ 16). nia.
Qed.

Lemma non_square_from_false (chroma : vlc_chroma_description_t) (k : nat) (i : Z) :
  non_square_from k i chroma = false <->
  forall j, i <= j < i + Z.of_nat k ->
    umul (num (w (p chroma j))) (den (h (p chroma j))) =
    umul (num (h (p chroma j))) (den (w (p chroma j))).
Proof.
  revert i. induction k as [|k IH]; intros i; cbn [non_square_from].
  - split; [intros _ j Hj; lia|reflexivity].
  - destruct (Z.eqb_spec (umul (num (w (p chroma i))) (den (h (p chroma i))))
                         (umul (num (h (p chroma i))) (den (w (p chroma i)))))
      as [Heq|Hne]; cbn [negb].
    + rewrite IH. split; intros H j Hj.
      * destruct (Z.eq_dec j i) as [->|Hji]; [exact Heq|apply H; lia].
      * apply H. lia.
    + split; [discriminate|]. intros H. exfalso. apply Hne, H. lia.
Qed.

Lemma non_square_iff (chroma : vlc_chroma_description_t) :
  small_ratios chroma ->
  (non_square_from (Z.to_nat (plane_count chroma)) 0 chroma = false <->
   square_samples chroma).
Proof.
  intros Hs. rewrite non_square_from_false. unfold square_samples.
  split; intros H j Hj.
  - assert (Hj' : 0 <= j < 0 + Z.of_nat (Z.to_nat (plane_count chroma))) by lia.
    specialize (H j Hj'). destruct (Hs j Hj) as (? & ? & ? & ?).
    rewrite !umul_small in H by assumption. exact H.
  - assert (Hj' : 0 <= j < plane_count chroma) by lia.
    destruct (Hs j Hj') as (? & ? & ? & ?).
    rewrite !umul_small by assumption. apply H. exact Hj'.
Qed.

(** The loop that copies [plane[0]] to the other slots. *)
Lemma fill_planes (k : nat) (i : Z) (sys : filter_sys_t) :
  0 < i ->
  let sys' := for_iter k i (fun i sys => set_plane sys i (plane sys 0)) sys in
  transform sys' = transform sys /\
  forall j, plane sys' j =
            if (i <=? j) && (j <? i + Z.of_nat k) then plane sys 0 else plane sys j.
Proof.
  revert i sys. induction k as [|k IH]; intros i sys Hi; cbn [for_iter].
  - split; [reflexivity|]. intros j.
    destruct (Z.leb_spec i j); destruct (Z.ltb_spec j (i + Z.of_nat 0));
      cbn; try reflexivity; lia.
  - destruct (IH (i + 1) (set_plane sys i (plane sys 0))) as [Ht Hp]; [lia|].
    split; [rewrite Ht; reflexivity|]. intros j. rewrite Hp.
    cbn [set_plane plane]. 
    destruct (Z.eqb_spec 0 i); [lia|].
    destruct (Z.eqb_spec j i);
      destruct (Z.leb_spec (i + 1) j);
      destruct (Z.ltb_spec j (i + 1 + Z.of_nat k));
      destruct (Z.leb_spec i j);
      destruct (Z.ltb_spec j (i + Z.of_nat (S k)));
      cbn; try reflexivity; lia.
Qed.

Lemma geometry_differs_false {O : Type} (dst src_trans : video_format_t O) :
  geometry_differs dst src_trans = false <-> same_geometry O dst src_trans.
Proof.
  unfold geometry_differs, same_geometry.
  rewrite !orb_false_iff, !negb_false_iff, !Z.eqb_eq. tauto.
Qed.

Lemma is_identity_false (t : video_transform_t) :
  is_identity t = false <-> t <> TRANSFORM_IDENTITY.
Proof. destruct t; cbn; split; congruence. Qed.

Lemma plane_for_entry (t : video_transform_t) (ps : Z) :
  t <> TRANSFORM_IDENTITY -> ps = 1 \/ ps = 2 \/ ps = 4 ->
  exists fn, plane_for (descriptions t) ps = Some fn /\
             In (8 * ps, Some fn) (entries t).
Proof.
  intros Ht Hps. unfold entries.
  destruct t; [contradiction| | | | | | | ];
    destruct Hps as [-> | [-> | ->]]; cbn; eexists; split;
    try reflexivity; auto.
Qed.

Section Setup.

Variable PICTURE_PLANE_MAX : Z.
Variables VLC_CODEC_NV12 VLC_CODEC_NV21 : vlc_fourcc_t.
Variable video_orientation_t : Type.
Variable picture_props : Type.
Variable video_format_GetTransform :
  video_orientation_t -> video_orientation_t -> video_transform_t.
Variable video_format_TransformBy :
  video_format_t video_orientation_t -> video_transform_t ->
  video_format_t video_orientation_t.
Variable vlc_fourcc_GetChromaDescription :
  vlc_fourcc_t -> option vlc_chroma_description_t.
Variable vlc_obj_malloc : filter_t video_orientation_t -> option filter_sys_t.

Implicit Types (filter : filter_t video_orientation_t).

Let open : filter_t video_orientation_t -> vlc_result * filter_t video_orientation_t :=
  Open PICTURE_PLANE_MAX VLC_CODEC_NV12 VLC_CODEC_NV21
       video_format_GetTransform video_format_TransformBy
       vlc_fourcc_GetChromaDescription vlc_obj_malloc.

Let admits : filter_t video_orientation_t -> Prop :=
  accepted video_orientation_t video_format_GetTransform
           video_format_TransformBy vlc_fourcc_GetChromaDescription.

Let transform_of filter : video_transform_t :=
  video_format_GetTransform (orientation (fmt_in filter))
                            (orientation (fmt_out filter)).

Let is_nv filter : bool :=
  (i_chroma (fmt_in filter) =? VLC_CODEC_NV12) ||
  (i_chroma (fmt_in filter) =? VLC_CODEC_NV21).

(** The table [Open] builds from the block [sys0]. *)
Let table filter (sys0 : filter_sys_t) (ps : Z) : filter_sys_t :=
  let dsc := descriptions (transform_of filter) in
  let sys :=
    for_iter (Z.to_nat (PICTURE_PLANE_MAX - 1)) 1
      (fun i sys => set_plane sys i (plane sys 0))
      (set_plane (set_transform sys0 (transform_of filter)) 0 (plane_for dsc ps)) in
  if is_nv filter then set_plane sys 1 (plane16 dsc) else sys.

Lemma Open_accepted filter sys0 :
  vlc_obj_malloc filter = Some sys0 ->
  (forall chroma,
     vlc_fourcc_GetChromaDescription (i_chroma (fmt_in filter)) = Some chroma ->
     small_ratios chroma) ->
  admits filter ->
  exists chroma,
    vlc_fourcc_GetChromaDescription (i_chroma (fmt_in filter)) = Some chroma /\
    open filter =
    (VLC_SUCCESS,
     mkFilter (fmt_in filter) (fmt_out filter) (Some filter_ops)
              (Some (table filter sys0 (pixel_size chroma)))).
Proof.
  intros Hm Hsmall (Ht & Hg & chroma & Hc & Hsq & Hps).
  exists chroma. split; [exact Hc|].
  unfold open, Open.
  rewrite (proj2 (is_identity_false _) Ht).
  rewrite (proj2 (geometry_differs_false _ _) Hg).
  rewrite Hc, Hm, (first_plane_some _ _ _ Hps).
  assert (Hns : ORIENT_IS_SWAP
                  (video_format_GetTransform (orientation (fmt_in filter))
                                             (orientation (fmt_out filter))) &&
                non_square_from (Z.to_nat (plane_count chroma)) 0 chroma = false).
  { destruct (ORIENT_IS_SWAP _) eqn:Hsw; [|reflexivity]. cbn [andb].
    apply (non_square_iff chroma (Hsmall chroma Hc)). apply Hsq. reflexivity. }
  rewrite Hns. reflexivity.
Qed.

Lemma Open_rejected filter sys0 :
  vlc_obj_malloc filter = Some sys0 ->
  (forall chroma,
     vlc_fourcc_GetChromaDescription (i_chroma (fmt_in filter)) = Some chroma ->
     small_ratios chroma) ->
  ~ admits filter ->
  open filter = (VLC_ENOTSUP, filter).
Proof.
  intros Hm Hsmall Hn. unfold open, Open.
  destruct (is_identity _) eqn:Hid; [reflexivity|].
  destruct (geometry_differs _ _) eqn:Hg; [reflexivity|].
  destruct (vlc_fourcc_GetChromaDescription _) as [chroma|] eqn:Hc; [|reflexivity].
  rewrite Hm.
  destruct (Z.eq_dec (pixel_size chroma) 1) as [H1|H1];
    [|destruct (Z.eq_dec (pixel_size chroma) 2) as [H2|H2];
      [|destruct (Z.eq_dec (pixel_size chroma) 4) as [H4|H4]]].
  4: rewrite first_plane_none by lia; reflexivity.
  all: rewrite first_plane_some by lia.
  all: destruct (ORIENT_IS_SWAP _ && non_square_from _ _ _) eqn:Hns; [reflexivity|].
  all: exfalso; apply Hn; split; [apply is_identity_false; exact Hid|];
    split; [apply geometry_differs_false; exact Hg|];
    exists chroma; split; [exact Hc|]; split; [|lia];
    intros Hsw; rewrite Hsw in Hns; cbn [andb] in Hns;
    apply (non_square_iff chroma (Hsmall chroma eq_refl)); exact Hns.
Qed.

(** What a successful [Open] leaves in the filter. *)
Lemma Open_success filter filter' :
  open filter = (VLC_SUCCESS, filter') ->
  exists sys0 chroma,
    vlc_obj_malloc filter = Some sys0 /\
    vlc_fourcc_GetChromaDescription (i_chroma (fmt_in filter)) = Some chroma /\
    transform_of filter <> TRANSFORM_IDENTITY /\
    (pixel_size chroma = 1 \/ pixel_size chroma = 2 \/ pixel_size chroma = 4) /\
    geometry_differs (fmt_out filter)
      (video_format_TransformBy (fmt_in filter) (transform_of filter)) = false /\
    ORIENT_IS_SWAP (transform_of filter) &&
      non_square_from (Z.to_nat (plane_count chroma)) 0 chroma = false /\
    filter' = mkFilter (fmt_in filter) (fmt_out filter) (Some filter_ops)
                       (Some (table filter sys0 (pixel_size chroma))).
Proof.
  unfold open, Open. intros H.
  destruct (is_identity _) eqn:Hid; [discriminate|].
  destruct (geometry_differs _ _) eqn:Hg; [discriminate|].
  destruct (vlc_fourcc_GetChromaDescription _) as [chroma|] eqn:Hc; [|discriminate].
  destruct (vlc_obj_malloc filter) as [sys0|] eqn:Hm; [|discriminate].
  assert (Hps : pixel_size chroma = 1 \/ pixel_size chroma = 2 \/ pixel_size chroma = 4).
  { destruct (Z.eq_dec (pixel_size chroma) 1); [auto|].
    destruct (Z.eq_dec (pixel_size chroma) 2); [auto|].
    destruct (Z.eq_dec (pixel_size chroma) 4); [auto|].
    rewrite first_plane_none in H by lia. discriminate. }
  rewrite (first_plane_some _ _ _ Hps) in H.
  destruct (ORIENT_IS_SWAP _ && non_square_from _ _ _) eqn:Hns; [discriminate|].
  injection H as <-.
  exists sys0, chroma.
  split; [reflexivity|]. split; [reflexivity|].
  split; [apply is_identity_false; exact Hid|].
  split; [exact Hps|]. split; [first [exact Hg|reflexivity]|].
  split; first [exact Hns|reflexivity].
Qed.

Lemma table_planes filter (sys0 : filter_sys_t) (ps i : Z) :
  0 <= i < PICTURE_PLANE_MAX ->
  transform (table filter sys0 ps) = transform_of filter /\
  plane (table filter sys0 ps) i =
  if (i =? 1) && is_nv filter
  then plane16 (descriptions (transform_of filter))
  else plane_for (descriptions (transform_of filter)) ps.
Proof.
  intros Hi. unfold table.
  set (dsc := descriptions (transform_of filter)).
  set (first := set_plane (set_transform sys0 (transform_of filter)) 0 (plane_for dsc ps)).
  destruct (fill_planes (Z.to_nat (PICTURE_PLANE_MAX - 1)) 1 first) as [Ht Hp]; [lia|].
  assert (Hfill : plane (for_iter (Z.to_nat (PICTURE_PLANE_MAX - 1)) 1
                           (fun i sys => set_plane sys i (plane sys 0)) first) i =
                  plane_for dsc ps).
  { rewrite Hp. unfold first. cbn [set_plane plane set_transform].
    destruct (Z.leb_spec 1 i);
      destruct (Z.ltb_spec i (1 + Z.of_nat (Z.to_nat (PICTURE_PLANE_MAX - 1))));
      cbn [andb]; try reflexivity; try lia.
    destruct (Z.eqb_spec i 0); [reflexivity|lia]. }
  destruct (is_nv filter); cbn [set_plane plane transform].
  - split; [exact Ht|]. rewrite andb_true_r.
    destruct (Z.eqb_spec i 1); [reflexivity|exact Hfill].
  - split; [exact Ht|]. rewrite andb_false_r. exact Hfill.
Qed.

Lemma released_app (l1 l2 : list (call picture_props)) :
  released picture_props (l1 ++ l2) =
  released picture_props l1 ++ released picture_props l2.
Proof.
  induction l1 as [|c l1 IH]; [reflexivity|].
  destruct c; cbn; rewrite IH; reflexivity.
Qed.

Lemma released_planes (l : list Z) :
  released picture_props (map CallPlane l) = [].
Proof. induction l as [|i l IH]; [reflexivity|exact IH]. Qed.

(** The plane loop of [Filter] when no slot it uses is null. *)
Lemma Filter_planes (sys : filter_sys_t) (d src : picture_t picture_props)
    (k : nat) (i : Z) (wd : world picture_props) :
  (forall j, i <= j < i + Z.of_nat k -> plane sys j <> None) ->
  exists st',
    for_iter k i (Filter_plane (Some sys) d src) (Some wd) =
    Some (mkWorld st' (w_calls wd ++ map CallPlane (zrange i k))).
Proof.
  revert i wd. induction k as [|k IH]; intros i wd Hp; cbn [for_iter].
  - exists (w_st wd). cbn. rewrite app_nil_r. destruct wd; reflexivity.
  - cbn [Filter_plane].
    destruct (plane sys i) as [fn|] eqn:Hfn; [|exfalso; apply (Hp i); [lia|exact Hfn]].
    match goal with
    | |- context [for_iter k (i + 1) _ (Some ?wd1)] =>
        destruct (IH (i + 1) wd1) as [st' Hst']
    end.
    { intros j Hj. apply Hp. lia. }
    exists st'. rewrite Hst'. cbn [w_calls zrange span map].
    rewrite <- app_assoc. reflexivity.
Qed.

(** C7. When the allocation succeeds, [Open] succeeds and installs a table
    exactly when the transform is not the identity, the transformed source
    format equals the output format in chroma, width, visible width, height,
    visible height and both offsets, the chroma description of the source
    exists, every plane has equal horizontal and vertical sample ratios if
    the transform swaps the axes, and the pixel size is 1, 2 or 4; otherwise
    it returns [VLC_ENOTSUP] and leaves the filter as it was.  In particular
    R90 is refused when a plane has ratio 1/2 horizontally and 1/1
    vertically. *)
Theorem Open_accepts_iff filter sys0 :
  vlc_obj_malloc filter = Some sys0 ->
  (forall chroma,
     vlc_fourcc_GetChromaDescription (i_chroma (fmt_in filter)) = Some chroma ->
     small_ratios chroma) ->
  let result :=
    Open PICTURE_PLANE_MAX VLC_CODEC_NV12 VLC_CODEC_NV21
         video_format_GetTransform video_format_TransformBy
         vlc_fourcc_GetChromaDescription vlc_obj_malloc filter in
  let ok :=
    accepted video_orientation_t video_format_GetTransform
             video_format_TransformBy vlc_fourcc_GetChromaDescription filter in
  (fst result = VLC_SUCCESS <-> ok) /\
  (ok -> exists sys,
     result = (VLC_SUCCESS,
               mkFilter (fmt_in filter) (fmt_out filter) (Some filter_ops)
                        (Some sys))) /\
  (~ ok -> result = (VLC_ENOTSUP, filter)) /\
  (video_format_GetTransform (orientation (fmt_in filter))
                             (orientation (fmt_out filter)) = TRANSFORM_R90 ->
   forall chroma i,
     vlc_fourcc_GetChromaDescription (i_chroma (fmt_in filter)) = Some chroma ->
     0 <= i < plane_count chroma ->
     p chroma i = mkRatio (mkRational 1 2) (mkRational 1 1) ->
     result = (VLC_ENOTSUP, filter)).
Proof.
  intros Hm Hsmall result ok.
  assert (Hyes : ok -> exists sys,
            result = (VLC_SUCCESS,
                      mkFilter (fmt_in filter) (fmt_out filter) (Some filter_ops)
                               (Some sys))).
  { intros Hok. destruct (Open_accepted filter sys0 Hm Hsmall Hok) as (c & _ & Ho).
    eexists. exact Ho. }
  assert (Hno : ~ ok -> result = (VLC_ENOTSUP, filter))
    by (intros Hn; exact (Open_rejected filter sys0 Hm Hsmall Hn)).
  split; [|split; [exact Hyes|split; [exact Hno|]]].
  - split.
    + intros Hr. destruct result as [r f'] eqn:Hres. cbn in Hr. subst r.
      destruct (Open_success filter f' Hres)
        as (s1 & chroma & _ & Hc & Ht & Hps & Hg & Hns & _).
      split; [exact Ht|]. split; [apply geometry_differs_false; exact Hg|].
      exists chroma. split; [exact Hc|]. split; [|exact Hps].
      intros Hsw. unfold transform_of in Hns. rewrite Hsw in Hns. cbn [andb] in Hns.
      apply (non_square_iff chroma (Hsmall chroma Hc)). exact Hns.
    + intros Hok. destruct (Hyes Hok) as [sys ->]. reflexivity.
  - intros Ht chroma i Hc Hi Hp. apply Hno.
    intros (_ & _ & chroma' & Hc' & Hsq & _).
    rewrite Hc in Hc'. injection Hc' as <-.
    rewrite Ht in Hsq. specialize (Hsq eq_refl i Hi).
    rewrite Hp in Hsq. cbn in Hsq. discriminate.
Qed.

(** C8. In the table a successful [Open] installs, every plane holds the
    catalog entry of the configured transform for the pixel size of the
    chroma description (1, 2 or 4 bytes), except that for NV12 and NV21 the
    second plane holds the 16-bit entry of the same transform. *)
Theorem Open_dispatch_table filter filter' :
  Open PICTURE_PLANE_MAX VLC_CODEC_NV12 VLC_CODEC_NV21
       video_format_GetTransform video_format_TransformBy
       vlc_fourcc_GetChromaDescription vlc_obj_malloc filter
  = (VLC_SUCCESS, filter') ->
  exists sys chroma,
    p_sys filter' = Some sys /\
    vlc_fourcc_GetChromaDescription (i_chroma (fmt_in filter)) = Some chroma /\
    transform sys =
      video_format_GetTransform (orientation (fmt_in filter))
                                (orientation (fmt_out filter)) /\
    (pixel_size chroma = 1 \/ pixel_size chroma = 2 \/ pixel_size chroma = 4) /\
    forall i, 0 <= i < PICTURE_PLANE_MAX ->
      plane sys i =
      dispatch (transform sys)
               ((i_chroma (fmt_in filter) =? VLC_CODEC_NV12) ||
                (i_chroma (fmt_in filter) =? VLC_CODEC_NV21))
               (pixel_size chroma) i.
Proof.
  intros Ho.
  destruct (Open_success filter filter' Ho)
    as (sys0 & chroma & _ & Hc & Ht & Hps & _ & _ & ->).
  exists (table filter sys0 (pixel_size chroma)), chroma.
  split; [reflexivity|]. split; [exact Hc|].
  assert (Htr : transform (table filter sys0 (pixel_size chroma)) =
                transform_of filter).
  { unfold table. destruct (is_nv filter); cbn [set_plane transform];
      apply (fill_planes (Z.to_nat (PICTURE_PLANE_MAX - 1)) 1); lia. }
  split; [exact Htr|]. split; [exact Hps|].
  intros i Hi. rewrite Htr.
  apply (table_planes filter sys0 (pixel_size chroma) i Hi).
Qed.

(** The slots [Filter] uses hold catalog entries after a successful [Open]. *)
Lemma Open_planes_set filter filter' :
  Open PICTURE_PLANE_MAX VLC_CODEC_NV12 VLC_CODEC_NV21
       video_format_GetTransform video_format_TransformBy
       vlc_fourcc_GetChromaDescription vlc_obj_malloc filter
  = (VLC_SUCCESS, filter') ->
  exists sys, p_sys filter' = Some sys /\
    forall i, 0 <= i < PICTURE_PLANE_MAX -> plane sys i <> None.
Proof.
  intros Ho.
  destruct (Open_success filter filter' Ho)
    as (sys0 & chroma & _ & Hc & Ht & Hps & _ & _ & ->).
  exists (table filter sys0 (pixel_size chroma)). split; [reflexivity|].
  intros i Hi.
  rewrite (proj2 (table_planes filter sys0 (pixel_size chroma) i Hi)).
  destruct (plane_for_entry (transform_of filter) (pixel_size chroma) Ht Hps)
    as (fn & Hfn & _).
  destruct ((i =? 1) && is_nv filter); [|rewrite Hfn; discriminate].
  destruct (transform_of filter); [contradiction| | | | | | | ]; discriminate.
Qed.

(** C9. Every call of [Filter] releases the source picture exactly once.
    When the allocation of the destination fails it calls no plane function,
    copies no properties, leaves memory as it was and returns no picture.
    When the allocation succeeds, on a filter set up by [Open], it calls the
    plane functions, copies the properties and returns the destination. *)
Theorem Filter_releases_source filter (src : picture_t picture_props)
    (fresh : option (picture_t picture_props)) (wd : world picture_props) :
  (fresh <> None ->
   exists filter0,
     Open PICTURE_PLANE_MAX VLC_CODEC_NV12 VLC_CODEC_NV21
          video_format_GetTransform video_format_TransformBy
          vlc_fourcc_GetChromaDescription vlc_obj_malloc filter0
     = (VLC_SUCCESS, filter) /\
     i_planes src <= PICTURE_PLANE_MAX) ->
  exists res wd' calls,
    Filter filter src fresh wd = Some (res, wd') /\
    w_calls wd' = w_calls wd ++ calls /\
    released picture_props calls = [src] /\
    match fresh with
    | None =>
        res = None /\ w_st wd' = w_st wd /\
        calls = [CallNewPicture; CallRelease src]
    | Some d =>
        res = Some (picture_CopyProperties d src) /\
        calls = CallNewPicture ::
                map CallPlane (zrange 0 (Z.to_nat (i_planes src))) ++
                [CallCopyProperties; CallRelease src]
    end.
Proof.
  intros Hcfg. unfold Filter. destruct fresh as [d|].
  - destruct Hcfg as (filter0 & Ho & Hn); [discriminate|].
    destruct (Open_planes_set filter0 filter Ho) as (sys & Hs & Hp).
    rewrite Hs. unfold for_loop.
    destruct (Filter_planes sys d src (Z.to_nat (i_planes src)) 0
                (called CallNewPicture wd)) as [st' Hst'].
    { intros j Hj. apply Hp. lia. }
    rewrite Hst'. do 3 eexists. split; [reflexivity|].
    cbn [called w_calls w_st]. rewrite <- !app_assoc. split; [reflexivity|].
    split; [|split; reflexivity].
    cbn [app released]. rewrite released_app, released_planes. reflexivity.
  - do 3 eexists. split; [reflexivity|].
    cbn [called w_calls w_st]. rewrite <- !app_assoc. split; [reflexivity|].
    split; [reflexivity|]. split; [reflexivity|]. split; reflexivity.
Qed.

End Setup.

End OpenClaims.

(* ================================================================== *)
(** * The theorems at work on the sample instance *)
(* ================================================================== *)

Module Instances.
Import Mem Planes Orient Layout Samples.

Lemma Mouse_follows_table_witness :
  Mouse (configured TRANSFORM_HFLIP 100 50) (mkMouse 10 5 tt) (mkMouse 0 0 tt) =
  Some (VLC_SUCCESS, mkMouse 89 5 tt).
Proof.
  apply (proj1 (MouseClaims.Mouse_follows_table bool unit)
           (configured TRANSFORM_HFLIP 100 50)
           (mkSys TRANSFORM_HFLIP (fun _ => None))
           (mkMouse 10 5 tt) (mkMouse 0 0 tt) 89 5).
  - reflexivity.
  - left. reflexivity.
Defined.

Lemma Mouse_touches_only_xy_witness :
  exists sx sy,
    Mouse (configured TRANSFORM_R270 100 50) (mkMouse 10 5 true) (mkMouse 0 0 false) =
    Some (VLC_SUCCESS, mkMouse sx sy true) /\
    forall (filter' : filter_t bool) sys' (mouse' mold' : vlc_mouse_t bool),
      p_sys filter' = Some sys' ->
      transform sys' = TRANSFORM_R270 ->
      i_visible_width (fmt_out filter') = 100 ->
      i_visible_height (fmt_out filter') = 50 ->
      i_x mouse' = 10 -> i_y mouse' = 5 ->
      Mouse filter' mouse' mold' =
      Some (VLC_SUCCESS, mkMouse sx sy (m_other mouse')).
Proof.
  apply (MouseClaims.Mouse_touches_only_xy bool bool
           (configured TRANSFORM_R270 100 50)
           (mkSys TRANSFORM_R270 (fun _ => None))
           (mkMouse 10 5 true) (mkMouse 0 0 false)).
  - reflexivity.
  - discriminate.
Defined.

Lemma Mouse_inverts_forward_witness :
  let st := plane_at 100 8 2 [[1; 2; 3]; [4; 5; 600]] in
  load_mem 2 (st_mem (r90 16 200 8 100 8 3 2 st)) (at_xy 200 8 2 0 0) =
  load_mem 2 (st_mem st) (at_xy 100 8 2 0 1) /\
  Mouse (configured TRANSFORM_R90 2 3) (mkMouse 0 0 tt) (mkMouse 7 7 tt) =
  Some (VLC_SUCCESS, mkMouse 0 1 tt).
Proof.
  intros st.
  apply (MouseClaims.Mouse_inverts_forward bool unit TRANSFORM_R90 16 (r90 16)
           200 8 100 8 3 2 st 0 1
           (configured TRANSFORM_R90 2 3) (mkSys TRANSFORM_R90 (fun _ => None))
           (mkMouse 0 0 tt) (mkMouse 7 7 tt)).
  - right. left. reflexivity.
  - unfold call_ok.
    (split; [|split; [|split; [|split; [|split; [|split; [|split]]]]]]);
      PlaneClaims.concrete.
  - lia.
  - lia.
  - reflexivity.
  - reflexivity.
  - reflexivity.
  - reflexivity.
  - reflexivity.
  - reflexivity.
Defined.

Lemma sample_ratios_small (c : vlc_fourcc_t) (chroma : vlc_chroma_description_t) :
  GetChromaDescription c = Some chroma -> small_ratios chroma.
Proof.
  unfold GetChromaDescription.
  destruct ((c =? NV12) || (c =? NV21)); [|destruct (c =? I422)];
    intros H; [injection H as <-|injection H as <-|discriminate];
    intros i Hi; cbn; destruct (i =? 0); cbn; lia.
Qed.

Lemma Open_accepts_iff_witness :
  (fst (open (proposal NV12)) = VLC_SUCCESS <->
   accepted bool GetTransform TransformBy GetChromaDescription (proposal NV12)) /\
  open (proposal I422) = (VLC_ENOTSUP, proposal I422).
Proof.
  split.
  - apply (OpenClaims.Open_accepts_iff 5 NV12 NV21 bool GetTransform TransformBy
             GetChromaDescription obj_malloc (proposal NV12) blank_sys).
    + reflexivity.
    + intros chroma. apply sample_ratios_small.
  - apply (OpenClaims.Open_accepts_iff 5 NV12 NV21 bool GetTransform TransformBy
             GetChromaDescription obj_malloc (proposal I422) blank_sys)
      with (chroma := mkChroma 3 (fun i => if i =? 0 then ratio 1 1 1 1
                                           else ratio 1 2 1 1) 1 8)
           (i := 1).
    + reflexivity.
    + intros chroma. apply sample_ratios_small.
    + reflexivity.
    + reflexivity.
    + cbn. lia.
    + reflexivity.
Defined.

Lemma Open_dispatch_table_witness :
  exists sys chroma,
    p_sys (snd (open (proposal NV12))) = Some sys /\
    GetChromaDescription NV12 = Some chroma /\
    transform sys = TRANSFORM_R90 /\
    (pixel_size chroma = 1 \/ pixel_size chroma = 2 \/ pixel_size chroma = 4) /\
    forall i, 0 <= i < 5 ->
      plane sys i = dispatch (transform sys) true (pixel_size chroma) i.
Proof.
  apply (OpenClaims.Open_dispatch_table 5 NV12 NV21 bool GetTransform TransformBy
           GetChromaDescription obj_malloc (proposal NV12)
           (snd (open (proposal NV12)))).
  reflexivity.
Defined.

Lemma Filter_releases_source_witness :
  let filter := snd (open (proposal NV12)) in
  let src := luma 100 4 4 2 in
  let d := luma 200 2 2 4 in
  let wd := mkWorld (plane_at 100 4 1 [[1; 2; 3; 4]; [5; 6; 7; 8]]) [] in
  exists res wd' calls,
    Filter filter src (Some d) wd = Some (res, wd') /\
    w_calls wd' = w_calls wd ++ calls /\
    released unit calls = [src] /\
    res = Some (picture_CopyProperties d src) /\
    calls = CallNewPicture ::
            map CallPlane (zrange 0 (Z.to_nat (i_planes src))) ++
            [CallCopyProperties; CallRelease src].
Proof.
  intros filter src d wd.
  apply (OpenClaims.Filter_releases_source 5 NV12 NV21 bool unit GetTransform
           TransformBy GetChromaDescription obj_malloc filter src (Some d) wd).
  intros _. exists (proposal NV12). split.
  - reflexivity.
  - cbn. lia.
Defined.

End Instances.

(* ================================================================== *)
(** * Further properties of the plane functions *)
(* ================================================================== *)

Module PlaneExtras.
Import Mem Planes Orient Layout Frames MemFacts PlaneFacts.

(** X1. [vflip] copies row [row] of the source, byte for byte, into row
    [height-1-row] of the destination, over the [width << order] visible
    bytes of the row; the pitches need not be multiples of anything, only the
    destination pitch at least one visible row and the planes disjoint. *)
Theorem vflip_reverses_rows
    (dst : addr) (ds : Z) (src : addr) (ss : Z) (width height order : Z)
    (st : state) (row b : Z) :
  Z.shiftl width order <= ds ->
  planes_apart TRANSFORM_VFLIP 1 dst ds src ss (Z.shiftl width order) height ->
  0 <= row < height -> 0 <= b < Z.shiftl width order ->
  st_mem (vflip dst ds src ss width height order st)
         (dst + (height - 1 - row) * ds + b) =
  st_mem st (src + row * ss + b).
Proof.
  intros Hds Hap Hr Hb.
  destruct (vflip_copies_of dst ds src ss width height order st) as (l & Hrun & Hl).
  rewrite Hrun.
  assert (Hwide : dst_width TRANSFORM_VFLIP (Z.shiftl width order) height * 1 <= ds)
    by (cbn [dst_width ORIENT_IS_SWAP]; lia).
  assert (H1 : 0 < 1) by lia. assert (H0 : 0 <= 0 < 1) by lia.
  pose proof (copies_moved TRANSFORM_VFLIP 1 dst ds src ss (Z.shiftl width order)
                height l H1 Hl Hap Hwide st b row 0 Hb Hr H0) as Hm.
  unfold forward, at_xy in Hm. cbn [fst snd] in Hm.
  replace (dst + (height - 1 - row) * ds + b)
    with (dst + (height - 1 - row) * ds + b * 1 + 0) by lia.
  rewrite Hm. f_equal. lia.
Qed.

Lemma vflip_reverses_rows_witness :
  st_mem (vflip 200 8 100 7 3 2 1 (plane_at 100 7 2 [[1; 2; 3]; [4; 5; 600]]))
         (200 + (2 - 1 - 1) * 8 + 4) =
  st_mem (plane_at 100 7 2 [[1; 2; 3]; [4; 5; 600]]) (100 + 1 * 7 + 4).
Proof.
  apply vflip_reverses_rows.
  - vm_compute. discriminate.
  - intros a (y & Hy & Ha) (y' & Hy' & Ha').
    unfold dst_width, dst_height in *. cbn [ORIENT_IS_SWAP] in *.
    change (Z.shiftl 3 1) with 6 in *. lia.
  - lia.
  - change (Z.shiftl 3 1) with 6. lia.
Defined.

Lemma forward_then (t1 t2 : video_transform_t) (width height x y : Z) :
  forward t2 (dst_width t1 width height) (dst_height t1 width height)
          (fst (forward t1 width height x y)) (snd (forward t1 width height x y)) =
  forward (then_transform t1 t2) width height x y.
Proof. destruct t1, t2; cbn; f_equal; lia. Qed.

(** X2. Two calls in a row, from a source plane through an intermediate
    plane to a destination plane, put every source element where the single
    transform [then_transform t1 t2] would put it; when that is the identity,
    the element is back at its own coordinates. *)
Theorem two_calls_compose
    (t1 t2 : video_transform_t) (bits : Z) (fn1 fn2 : plane_fn)
    (src : addr) (ss : Z) (mid : addr) (ms : Z) (dst : addr) (ds : Z)
    (width height : Z) (st : state) (x y : Z) :
  In (bits, Some fn1) (entries t1) ->
  In (bits, Some fn2) (entries t2) ->
  call_ok t1 bits mid ms src ss width height ->
  call_ok t2 bits dst ds mid ms (dst_width t1 width height)
          (dst_height t1 width height) ->
  0 <= x < width -> 0 <= y < height ->
  let st1 := fn1 mid ms src ss width height st in
  let st2 := fn2 dst ds mid ms (dst_width t1 width height)
                 (dst_height t1 width height) st1 in
  load_mem (elt bits) (st_mem st2)
           (at_xy dst ds (elt bits)
                  (fst (forward (then_transform t1 t2) width height x y))
                  (snd (forward (then_transform t1 t2) width height x y))) =
  load_mem (elt bits) (st_mem st) (at_xy src ss (elt bits) x y).
Proof.
  intros Hin1 Hin2 (Hb1 & Hw1 & Hh1 & Hss1 & Hds1 & Hsw1 & Hdw1 & Hap1)
         (Hb2 & Hw2 & Hh2 & Hss2 & Hds2 & Hsw2 & Hdw2 & Hap2) Hx Hy st1 st2.
  destruct (forward_in_range t1 width height x y Hx Hy) as [Hfx Hfy].
  rewrite <- forward_then. subst st2.
  rewrite (entry_moves t2 bits fn2 dst ds mid ms _ _ Hin2 Hds2 Hss2 Hap2 Hdw2
             st1 _ _ Hfx Hfy).
  subst st1.
  apply (entry_moves t1 bits fn1 mid ms src ss width height Hin1 Hds1 Hss1
           Hap1 Hdw1 st x y Hx Hy).
Qed.

Lemma two_calls_compose_witness :
  let st := plane_at 100 8 2 [[1; 2; 3]; [4; 5; 600]] in
  load_mem 2 (st_mem (r270 16 300 8 200 8 2 3 (r90 16 200 8 100 8 3 2 st)))
           (at_xy 300 8 2 2 1) =
  load_mem 2 (st_mem st) (at_xy 100 8 2 2 1).
Proof.
  intros st.
  apply (two_calls_compose TRANSFORM_R90 TRANSFORM_R270 16 (r90 16) (r270 16)
           100 8 200 8 300 8 3 2 st 2 1).
  - right. left. reflexivity.
  - right. left. reflexivity.
  - unfold call_ok.
    (split; [|split; [|split; [|split; [|split; [|split; [|split]]]]]]);
      PlaneClaims.concrete.
  - unfold call_ok.
    (split; [|split; [|split; [|split; [|split; [|split; [|split]]]]]]);
      PlaneClaims.concrete.
  - lia.
  - lia.
Defined.

(** ** How many bytes a call touches *)

Lemma span_length (n : nat) (a : addr) : length (span a n) = n.
Proof. revert a. induction n as [|n IH]; intros a; cbn; [reflexivity|]. rewrite IH. reflexivity. Qed.

Lemma reads_app (l1 l2 : list event) : reads (l1 ++ l2) = reads l1 ++ reads l2.
Proof.
  induction l1 as [|[a|a] l1 IH]; cbn; [reflexivity| |]; rewrite IH; reflexivity.
Qed.

Lemma writes_app (l1 l2 : list event) : writes (l1 ++ l2) = writes l1 ++ writes l2.
Proof.
  induction l1 as [|[a|a] l1 IH]; cbn; [reflexivity| |]; rewrite IH; reflexivity.
Qed.

Lemma reads_Rd (l : list addr) : reads (map Rd l) = l /\ writes (map Rd l) = [].
Proof. induction l as [|a l [IH1 IH2]]; cbn; [auto|]. rewrite IH1, IH2. auto. Qed.

Lemma writes_Wr (l : list addr) : writes (map Wr l) = l /\ reads (map Wr l) = [].
Proof. induction l as [|a l [IH1 IH2]]; cbn; [auto|]. rewrite IH1, IH2. auto. Qed.

Lemma copies_log_count (w : Z) (l : list (addr * addr)) :
  length (reads (copies_log w l)) = (length l * Z.to_nat w)%nat /\
  length (writes (copies_log w l)) = (length l * Z.to_nat w)%nat.
Proof.
  induction l as [|[s d] l [IH1 IH2]]; cbn [copies_log flat_map fst snd length];
    [split; reflexivity|].
  fold (copies_log w l).
  rewrite !reads_app, !writes_app, !length_app, IH1, IH2.
  rewrite (proj1 (reads_Rd _)), (proj2 (reads_Rd _)).
  rewrite (proj1 (writes_Wr _)), (proj2 (writes_Wr _)).
  rewrite !span_length. cbn [length]. split; lia.
Qed.

Lemma loop_copies_length (row : addr -> addr -> list (addr * addr)) (n : nat)
    (ds dd : Z) (k : nat) (s d : addr) :
  (forall s d, length (row s d) = n) ->
  length (loop_copies k s d ds dd row) = (k * n)%nat.
Proof.
  intros Hrow. revert s d. induction k as [|k IH]; intros s d; cbn [loop_copies].
  - reflexivity.
  - rewrite length_app, Hrow, IH. reflexivity.
Qed.

(** The two nested loops run [height * width] element copies, whatever the
    pitches. *)
Lemma hflip_count (bits : Z) (dst : addr) (ds : Z) (src : addr) (ss : Z)
    (width height : Z) (st : state) :
  exists l, hflip bits dst ds src ss width height st = run_copies (elt bits) l st /\
            length l = (Z.to_nat height * Z.to_nat width)%nat.
Proof.
  set (w := elt bits).
  set (row := fun s d : addr =>
         map (fun x => (s + x * w, d + (- x) * w)) (zrange 0 (Z.to_nat width))).
  exists (loop_copies (Z.to_nat height) src (dst + (width - 1) * w)
            (Z.quot ss w * w) (Z.quot ds w * w) row).
  split.
  - unfold hflip. fold w.
    apply (row_loop w (Z.quot ss w * w) (Z.quot ds w * w) row).
    intros i c. rewrite elements_loop. reflexivity.
  - apply loop_copies_length. intros s d. unfold row, zrange.
    rewrite length_map, span_length. reflexivity.
Qed.

Lemma transpose_count (bits : Z) (dst : addr) (ds : Z) (src : addr) (ss : Z)
    (width height : Z) (st : state) :
  exists l, transpose bits dst ds src ss width height st =
            run_copies (elt bits) l st /\
            length l = (Z.to_nat height * Z.to_nat width)%nat.
Proof.
  set (w := elt bits).
  set (row := fun s d : addr =>
         map (fun x => (s + x * w, d + (x * Z.quot ds w) * w))
             (zrange 0 (Z.to_nat width))).
  exists (loop_copies (Z.to_nat height) src dst (Z.quot ss w * w) (1 * w) row).
  split.
  - unfold transpose. fold w.
    apply (row_loop w (Z.quot ss w * w) (1 * w) row).
    intros i c. rewrite elements_loop. reflexivity.
  - apply loop_copies_length. intros s d. unfold row, zrange.
    rewrite length_map, span_length. reflexivity.
Qed.

Lemma vflip_count (dst : addr) (ds : Z) (src : addr) (ss : Z)
    (width height order : Z) (st : state) :
  exists l, vflip dst ds src ss width height order st = run_copies 1 l st /\
            length l = (Z.to_nat height * Z.to_nat (Z.shiftl width order))%nat.
Proof.
  set (n := Z.shiftl width order).
  set (row := fun s d : addr =>
         map (fun i => (s + i, d - ds + i)) (zrange 0 (Z.to_nat n))).
  exists (loop_copies (Z.to_nat height) src (dst + ds * height) ss (- ds) row).
  split.
  - unfold vflip. fold n.
    apply (row_loop 1 ss (- ds) row).
    intros i c. unfold memcpy.
    rewrite (elements_loop 1 (fun i => c_src c + i) (fun i => c_dst c - ds + i)).
    reflexivity.
  - apply loop_copies_length. intros s d. unfold row, zrange.
    rewrite length_map, span_length. reflexivity.
Qed.

Lemma entry_copy_count (t : video_transform_t) (bits : Z) (fn : plane_fn)
    (dst : addr) (ds : Z) (src : addr) (ss : Z) (width height : Z) (st : state) :
  In (bits, Some fn) (entries t) ->
  0 <= width -> 0 <= height ->
  exists w' l,
    fn dst ds src ss width height st = run_copies w' l st /\
    Z.of_nat (length l * Z.to_nat w') = width * height * elt bits.
Proof.
  intros Hin Hw Hh.
  destruct t; cbn in Hin; destruct Hin as [H|[H|[H|[]]]];
    try discriminate H; injection H as Hb Hf; subst bits fn.
  all: try unfold antitranspose; try unfold r270; try unfold r90;
    try unfold r180; try unfold vflip_bits; cbv zeta.
  all: first
    [ match goal with
      | |- exists _ _, hflip ?b ?dst ?ds ?src ?ss ?wd ?ht ?st = _ /\ _ =>
          destruct (hflip_count b dst ds src ss wd ht st) as (l & Hrun & Hlen);
          exists (elt b), l; split; [exact Hrun|]; rewrite Hlen
      | |- exists _ _, transpose ?b ?dst ?ds ?src ?ss ?wd ?ht ?st = _ /\ _ =>
          destruct (transpose_count b dst ds src ss wd ht st) as (l & Hrun & Hlen);
          exists (elt b), l; split; [exact Hrun|]; rewrite Hlen
      | |- exists _ _, vflip ?dst ?ds ?src ?ss ?wd ?ht ?o ?st = _ /\ _ =>
          destruct (vflip_count dst ds src ss wd ht o st) as (l & Hrun & Hlen);
          exists 1, l; split; [exact Hrun|]; rewrite Hlen;
          rewrite Z.shiftl_mul_pow2 by (cbv; discriminate)
      end ].
  all: try change (2 ^ ctz (elt 8)) with 1; try change (2 ^ ctz (elt 16)) with 2;
    try change (2 ^ ctz (elt 32)) with 4;
    try change (elt 8) with 1; try change (elt 16) with 2;
    try change (elt 32) with 4;
    rewrite !Nat2Z.inj_mul, !Z2Nat.id by lia; lia.
Qed.

(** X3. Every entry of the catalog, on a plane of non-negative width and
    height and whatever the pitches, reads exactly
    [width * height * element size] bytes and writes as many: one pass over
    the plane. *)
Theorem entry_access_count
    (t : video_transform_t) (bits : Z) (fn : plane_fn)
    (dst : addr) (ds : Z) (src : addr) (ss : Z) (width height : Z) (st : state) :
  In (bits, Some fn) (entries t) ->
  0 <= width -> 0 <= height ->
  exists accesses,
    st_log (fn dst ds src ss width height st) = st_log st ++ accesses /\
    Z.of_nat (length (reads accesses)) = width * height * elt bits /\
    Z.of_nat (length (writes accesses)) = width * height * elt bits.
Proof.
  intros Hin Hw Hh.
  destruct (entry_copy_count t bits fn dst ds src ss width height st Hin Hw Hh)
    as (w' & l & Hrun & Hlen).
  exists (copies_log w' l). rewrite Hrun, run_copies_log.
  destruct (copies_log_count w' l) as [Hr Hwr].
  rewrite Hr, Hwr. repeat split; assumption.
Qed.

Lemma entry_access_count_witness :
  let st := plane_at 100 8 2 [[1; 2; 3]; [4; 5; 600]] in
  exists accesses,
    st_log (antitranspose 16 200 8 100 8 3 2 st) = st_log st ++ accesses /\
    Z.of_nat (length (reads accesses)) = 3 * 2 * 2 /\
    Z.of_nat (length (writes accesses)) = 3 * 2 * 2.
Proof.
  intros st.
  apply (entry_access_count TRANSFORM_ANTI_TRANSPOSE 16 (antitranspose 16)
           200 8 100 8 3 2 st).
  - right. left. reflexivity.
  - lia.
  - lia.
Defined.

End PlaneExtras.

(* ================================================================== *)
(** * Further properties of setup and of the per-frame filter *)
(* ================================================================== *)

Module FilterExtras.
Import Mem Planes Orient Layout Frames MemFacts PlaneFacts OpenClaims.

Section Setup.

Variable PICTURE_PLANE_MAX : Z.
Variables VLC_CODEC_NV12 VLC_CODEC_NV21 : vlc_fourcc_t.
Variable video_orientation_t : Type.
Variable picture_props : Type.
Variable video_format_GetTransform :
  video_orientation_t -> video_orientation_t -> video_transform_t.
Variable video_format_TransformBy :
  video_format_t video_orientation_t -> video_transform_t ->
  video_format_t video_orientation_t.
Variable vlc_fourcc_GetChromaDescription :
  vlc_fourcc_t -> option vlc_chroma_description_t.
Variable vlc_obj_malloc : filter_t video_orientation_t -> option filter_sys_t.

Implicit Types (filter : filter_t video_orientation_t).

(** X4. When the allocation fails, [Open] reports [VLC_ENOMEM] exactly when
    the transform is not the identity, the geometry matches and the chroma
    description exists: the pixel size and the sample ratios are only looked
    at after the allocation.  Otherwise it reports [VLC_ENOTSUP].  The filter
    is left as it was in both cases. *)
Theorem Open_allocation_failure filter :
  vlc_obj_malloc filter = None ->
  let result :=
    Open PICTURE_PLANE_MAX VLC_CODEC_NV12 VLC_CODEC_NV21
         video_format_GetTransform video_format_TransformBy
         vlc_fourcc_GetChromaDescription vlc_obj_malloc filter in
  let t := video_format_GetTransform (orientation (fmt_in filter))
                                     (orientation (fmt_out filter)) in
  let reached :=
    t <> TRANSFORM_IDENTITY /\
    same_geometry video_orientation_t (fmt_out filter)
                  (video_format_TransformBy (fmt_in filter) t) /\
    vlc_fourcc_GetChromaDescription (i_chroma (fmt_in filter)) <> None in
  (reached -> result = (VLC_ENOMEM, filter)) /\
  (~ reached -> result = (VLC_ENOTSUP, filter)).
Proof.
  intros Hm result t reached. subst result reached t. unfold Open.
  destruct (is_identity _) eqn:Hid.
  - split; [|reflexivity]. intros (Ht & _).
    apply is_identity_false in Ht. congruence.
  - destruct (geometry_differs _ _) eqn:Hg.
    + split; [|reflexivity]. intros (_ & Hgeo & _).
      apply geometry_differs_false in Hgeo. congruence.
    + destruct (vlc_fourcc_GetChromaDescription _) as [chroma|] eqn:Hc.
      * rewrite Hm. split; [reflexivity|]. intros Hn. exfalso. apply Hn.
        split; [apply is_identity_false; exact Hid|].
        split; [apply geometry_differs_false; exact Hg|discriminate].
      * split; [|reflexivity]. intros (_ & _ & Hne). congruence.
Qed.

Lemma Open_cases filter :
  let result :=
    Open PICTURE_PLANE_MAX VLC_CODEC_NV12 VLC_CODEC_NV21
         video_format_GetTransform video_format_TransformBy
         vlc_fourcc_GetChromaDescription vlc_obj_malloc filter in
  fst result = VLC_SUCCESS \/ result = (VLC_ENOTSUP, filter) \/
  result = (VLC_ENOMEM, filter).
Proof.
  cbv zeta. unfold Open.
  destruct (is_identity _); [auto|].
  destruct (geometry_differs _ _); [auto|].
  destruct (vlc_fourcc_GetChromaDescription _) as [chroma|]; [|auto].
  destruct (vlc_obj_malloc filter) as [sys0|]; [|auto].
  destruct (first_plane _ _ _); [|auto].
  destruct (ORIENT_IS_SWAP _ && non_square_from _ _ _); auto.
Qed.

(** X5. [Open] changes the filter only when it succeeds, and then only its
    [ops] and [p_sys]: a refused or failed setup leaves no partial state.  A
    successful setup implies, with no assumption on the chroma description,
    that the transform is not the identity and that the output format is the
    transformed input format. *)
Theorem Open_leaves_filter filter :
  let result :=
    Open PICTURE_PLANE_MAX VLC_CODEC_NV12 VLC_CODEC_NV21
         video_format_GetTransform video_format_TransformBy
         vlc_fourcc_GetChromaDescription vlc_obj_malloc filter in
  let t := video_format_GetTransform (orientation (fmt_in filter))
                                     (orientation (fmt_out filter)) in
  (fst result <> VLC_SUCCESS -> snd result = filter) /\
  (fst result = VLC_SUCCESS ->
   fmt_in (snd result) = fmt_in filter /\
   fmt_out (snd result) = fmt_out filter /\
   ops (snd result) = Some filter_ops /\
   (exists sys, p_sys (snd result) = Some sys /\ transform sys = t) /\
   t <> TRANSFORM_IDENTITY /\
   same_geometry video_orientation_t (fmt_out filter)
                 (video_format_TransformBy (fmt_in filter) t)).
Proof.
  intros result t. split.
  - intros Hne. destruct (Open_cases filter) as [H|[H|H]].
    + contradiction.
    + fold result in H. rewrite H. reflexivity.
    + fold result in H. rewrite H. reflexivity.
  - intros Hr. destruct result as [r f'] eqn:Hres. cbn in Hr. subst r.
    destruct (Open_success PICTURE_PLANE_MAX VLC_CODEC_NV12 VLC_CODEC_NV21
                video_orientation_t video_format_GetTransform
                video_format_TransformBy vlc_fourcc_GetChromaDescription
                vlc_obj_malloc filter f' Hres)
      as (sys0 & chroma & _ & Hc & Ht & Hps & Hg & _ & ->).
    cbn [snd fmt_in fmt_out ops p_sys].
    split; [reflexivity|]. split; [reflexivity|]. split; [reflexivity|].
    split; [|split; [exact Ht|apply geometry_differs_false; exact Hg]].
    eexists. split; [reflexivity|].
    match goal with
    | |- transform ?tb = _ => 
        destruct (Z_lt_le_dec 0 PICTURE_PLANE_MAX) as [Hp|Hp]
    end.
    + apply (table_planes PICTURE_PLANE_MAX VLC_CODEC_NV12 VLC_CODEC_NV21
               video_orientation_t video_format_GetTransform filter sys0
               (pixel_size chroma) 0). lia.
    + destruct ((i_chroma (fmt_in filter) =? VLC_CODEC_NV12) ||
                (i_chroma (fmt_in filter) =? VLC_CODEC_NV21));
        cbn [set_plane transform];
        apply (fill_planes (Z.to_nat (PICTURE_PLANE_MAX - 1)) 1); lia.
Qed.

End Setup.

Section Frame_.

Variable video_orientation_t : Type.
Variable picture_props : Type.
Variable t : video_transform_t.
Variable bits_of : Z -> Z.
Variables src d : picture_t picture_props.
Variable sys : filter_sys_t.
Hypothesis ok : frame_ok picture_props t bits_of src d sys.

Let sp (i : Z) : addr := p_pixels (pic_p src i).
Let ss (i : Z) : Z := i_pitch (pic_p src i).
Let dp (i : Z) : addr := p_pixels (pic_p d i).
Let ds (i : Z) : Z := i_pitch (pic_p d i).
Let wd_ (i : Z) : Z := plane_width (pic_p src i).
Let ht (i : Z) : Z := i_visible_lines (pic_p src i).

(** The plane loop from plane [i] on: every plane it handles ends up
    transformed, and bytes outside their destination rectangles are kept. *)
Lemma Filter_planes_moved (k : nat) (i : Z) (wd : world picture_props) :
  0 <= i -> (forall j, i <= j < i + Z.of_nat k -> j < i_planes src) ->
  exists st',
    for_iter k i (Filter_plane (Some sys) d src) (Some wd) =
    Some (mkWorld st' (w_calls wd ++ map CallPlane (zrange i k))) /\
    (forall j x y b,
       i <= j < i + Z.of_nat k ->
       0 <= x < wd_ j -> 0 <= y < ht j -> 0 <= b < elt (bits_of j) ->
       st_mem st'
         (at_xy (dp j) (ds j) (elt (bits_of j))
                (fst (forward t (wd_ j) (ht j) x y))
                (snd (forward t (wd_ j) (ht j) x y)) + b) =
       st_mem (w_st wd) (at_xy (sp j) (ss j) (elt (bits_of j)) x y + b)) /\
    (forall q,
       (forall j, i <= j < i + Z.of_nat k ->
                  ~ dst_rect picture_props t bits_of src d j q) ->
       st_mem st' q = st_mem (w_st wd) q).
Proof.
  destruct ok as (Htr & Hcalls & Hapart).
  revert i wd. induction k as [|k IH]; intros i wd Hi Hn; cbn [for_iter].
  - exists (w_st wd). cbn [zrange span map]. rewrite app_nil_r.
    split; [destruct wd; reflexivity|]. split; [intros; lia|reflexivity].
  - assert (Hlt : forall j, i <= j < i + Z.of_nat (S k) -> 0 <= j < i_planes src)
      by (intros j Hj; split; [lia|apply Hn; exact Hj]).
    destruct (Hcalls i) as (fn & Hfn & Hin & Hok); [apply Hlt; lia|].
    destruct Hok as (Hb & Hw & Hh & Hss & Hds & Hsw & Hdw & Hap).
    cbn [Filter_plane]. rewrite Hfn.
    fold (plane_width (pic_p src i)).
    fold (sp i) (ss i) (dp i) (ds i) (wd_ i) (ht i).
    set (st1 := fn (dp i) (ds i) (sp i) (ss i) (wd_ i) (ht i) (w_st wd)).
    destruct (IH (i + 1) (mkWorld st1 (w_calls wd ++ [CallPlane i])))
      as (st' & Hrun & Hmoved & Hkept); [lia|intros j Hj; apply Hn; lia|].
    exists st'. split; [|split].
    + rewrite Hrun. cbn [w_calls zrange span map].
      rewrite <- app_assoc. reflexivity.
    + intros j x y b Hj Hx Hy Hbb. cbn [w_st] in Hmoved, Hkept.
      destruct (Z.eq_dec j i) as [->|Hji].
      * rewrite Hkept.
        -- apply (entry_moves_bytes t (bits_of i) fn (dp i) (ds i) (sp i) (ss i)
                    (wd_ i) (ht i) Hin Hds Hss Hap Hdw (w_st wd) x y b Hx Hy Hbb).
        -- intros j Hj' Hrect.
           destruct (Hapart i j _ (Hlt i ltac:(lia)) (Hlt j ltac:(lia))
                       ltac:(lia) Hrect) as [_ Hnd].
           apply Hnd. unfold dst_rect.
           destruct (forward_in_range t (wd_ i) (ht i) x y Hx Hy) as [Hfx Hfy].
           apply element_in_plane; assumption.
      * rewrite Hmoved by (try assumption; lia).
        apply (entry_frame t (bits_of i) fn (dp i) (ds i) (sp i) (ss i)
                 (wd_ i) (ht i) Hin Hds Hss).
        intros Hrect.
        destruct (Hapart j i _ (Hlt j ltac:(lia)) (Hlt i ltac:(lia))
                    ltac:(lia) Hrect) as [Hns _].
        apply Hns. unfold src_rect. apply element_in_plane; assumption.
    + intros q Hq. cbn [w_st] in Hkept. rewrite Hkept.
      * apply (entry_frame t (bits_of i) fn (dp i) (ds i) (sp i) (ss i)
                 (wd_ i) (ht i) Hin Hds Hss).
        apply (Hq i). lia.
      * intros j Hj. apply Hq. lia.
Qed.

(** X6. On a filter whose table fits the two pictures, [Filter] returns the
    destination picture with the properties of the source; every element of
    every source plane is then found at its transformed place in the same
    plane of the destination, and no byte outside the visible rectangles of
    the destination planes has changed. *)
Theorem Filter_transforms_frame
    (filter : filter_t video_orientation_t) (wd : world picture_props) :
  p_sys filter = Some sys ->
  exists wd',
    Filter filter src (Some d) wd =
    Some (Some (picture_CopyProperties d src), wd') /\
    (forall i x y,
       0 <= i < i_planes src ->
       0 <= x < plane_width (pic_p src i) ->
       0 <= y < i_visible_lines (pic_p src i) ->
       load_mem (elt (bits_of i)) (st_mem (w_st wd'))
         (at_xy (p_pixels (pic_p d i)) (i_pitch (pic_p d i)) (elt (bits_of i))
            (fst (forward t (plane_width (pic_p src i))
                          (i_visible_lines (pic_p src i)) x y))
            (snd (forward t (plane_width (pic_p src i))
                          (i_visible_lines (pic_p src i)) x y))) =
       load_mem (elt (bits_of i)) (st_mem (w_st wd))
         (at_xy (p_pixels (pic_p src i)) (i_pitch (pic_p src i))
                (elt (bits_of i)) x y)) /\
    (forall q,
       (forall i, 0 <= i < i_planes src ->
                  ~ dst_rect picture_props t bits_of src d i q) ->
       st_mem (w_st wd') q = st_mem (w_st wd) q).
Proof.
  intros Hs. unfold Filter. rewrite Hs. unfold for_loop.
  destruct (Filter_planes_moved (Z.to_nat (i_planes src)) 0
              (called CallNewPicture wd)) as (st' & Hrun & Hmoved & Hkept);
    [lia|intros j Hj; lia|].
  rewrite Hrun. eexists. split; [reflexivity|].
  cbn [called w_st] in Hmoved, Hkept |- *. split.
  - intros i x y Hi Hx Hy. apply load_mem_ext. intros b Hb.
    apply Hmoved; try assumption; lia.
  - intros q Hq. apply Hkept. intros j Hj. apply Hq. lia.
Qed.

End Frame_.

End FilterExtras.

(* ================================================================== *)
(** * The further properties at work on the sample instance *)
(* ================================================================== *)

Module MoreInstances.
Import Mem Planes Orient Layout Samples Frames.

Lemma Open_allocation_failure_witness :
  Open 5 NV12 NV21 GetTransform TransformBy GetChromaDescription no_malloc
       (proposal I422) = (VLC_ENOMEM, proposal I422).
Proof.
  apply (FilterExtras.Open_allocation_failure 5 NV12 NV21 bool GetTransform
           TransformBy GetChromaDescription no_malloc (proposal I422)).
  - reflexivity.
  - split; [discriminate|]. split; [|discriminate].
    unfold same_geometry. cbn. repeat split; reflexivity.
Defined.

Lemma Open_leaves_filter_witness :
  snd (open (proposal I422)) = proposal I422.
Proof.
  apply (FilterExtras.Open_leaves_filter 5 NV12 NV21 bool GetTransform
           TransformBy GetChromaDescription obj_malloc (proposal I422)).
  discriminate.
Defined.

Ltac nv12_norm :=
  unfold call_ok, width_ok, src_rect, dst_rect, planes_apart, in_plane,
    plane_width, dst_width, dst_height;
  cbn [nv12_src nv12_dst nv12_bits pic_p p_pixels i_pitch i_visible_pitch
       i_pixel_pitch i_visible_lines Z.eqb ORIENT_IS_SWAP];
  try change (elt 8) with 1; try change (elt 16) with 2;
  try change (Z.quot 4 1) with 4; try change (Z.quot 4 2) with 2.

Lemma nv12_frame_ok :
  frame_ok unit TRANSFORM_R90 nv12_bits nv12_src nv12_dst nv12_sys.
Proof.
  split; [reflexivity|]. split.
  - intros i Hi. change (i_planes nv12_src) with 2 in Hi.
    assert (Hc : i = 0 \/ i = 1) by lia. destruct Hc as [-> | ->].
    + exists (r90 8). split; [reflexivity|]. split; [left; reflexivity|].
      nv12_norm.
      (split; [|split; [|split; [|split; [|split; [|split; [|split]]]]]]);
        try lia;
        try (apply Z.mod_divide; [discriminate|reflexivity]).
      intros a (y & Hy & Ha) (y' & Hy' & Ha'). lia.
    + exists (r90 16). split; [reflexivity|].
      split; [right; left; reflexivity|].
      nv12_norm.
      (split; [|split; [|split; [|split; [|split; [|split; [|split]]]]]]);
        try lia;
        try (apply Z.mod_divide; [discriminate|reflexivity]).
      intros a (y & Hy & Ha) (y' & Hy' & Ha'). lia.
  - intros i j a Hi Hj Hij. change (i_planes nv12_src) with 2 in Hi, Hj.
    assert (Hc : (i = 0 /\ j = 1) \/ (i = 1 /\ j = 0)) by lia.
    destruct Hc as [[-> ->] | [-> ->]]; nv12_norm;
      intros (y & Hy & Ha); split; intros (y' & Hy' & Ha'); lia.
Qed.

Lemma Filter_transforms_frame_witness :
  exists wd',
    Filter nv12_filter nv12_src (Some nv12_dst) nv12_world =
    Some (Some (picture_CopyProperties nv12_dst nv12_src), wd') /\
    (forall i x y,
       0 <= i < i_planes nv12_src ->
       0 <= x < plane_width (pic_p nv12_src i) ->
       0 <= y < i_visible_lines (pic_p nv12_src i) ->
       load_mem (elt (nv12_bits i)) (st_mem (w_st wd'))
         (at_xy (p_pixels (pic_p nv12_dst i)) (i_pitch (pic_p nv12_dst i))
            (elt (nv12_bits i))
            (fst (forward TRANSFORM_R90 (plane_width (pic_p nv12_src i))
                          (i_visible_lines (pic_p nv12_src i)) x y))
            (snd (forward TRANSFORM_R90 (plane_width (pic_p nv12_src i))
                          (i_visible_lines (pic_p nv12_src i)) x y))) =
       load_mem (elt (nv12_bits i)) (st_mem (w_st nv12_world))
         (at_xy (p_pixels (pic_p nv12_src i)) (i_pitch (pic_p nv12_src i))
                (elt (nv12_bits i)) x y)) /\
    (forall q,
       (forall i, 0 <= i < i_planes nv12_src ->
                  ~ dst_rect unit TRANSFORM_R90 nv12_bits nv12_src nv12_dst i q) ->
       st_mem (w_st wd') q = st_mem (w_st nv12_world) q).
Proof.
  apply (FilterExtras.Filter_transforms_frame bool unit TRANSFORM_R90 nv12_bits
           nv12_src nv12_dst nv12_sys nv12_frame_ok nv12_filter nv12_world).
  reflexivity.
Defined.

End MoreInstances.
